(** * sliver-ui: the push-channel hook [useWebSocket] and the tunnel stop path

    A shallow embedding of the client-side connection manager
    (the React hook [useWebSocket]) as an event-driven state machine:
    every callback of the hook is a function from the hook's state to a
    new state and the list of calls it makes on its collaborators.
    The browser side (sockets, timers, localStorage) is part of the state,
    so that stale sockets and timers are modelled as the code has them.
    The theme hook [useTheme] and the CDP panel [CDPConnect] follow, each
    in a module of its own. *)

From Stdlib Require Import ZArith Lia Bool List.
From stdpp Require Import base list strings gmap.
Import ListNotations.
Local Open Scope string_scope.
Local Open Scope Z_scope.
Local Open Scope list_scope.

(** ** JavaScript values coming out of [JSON.parse] *)

Module Js.

#[local] Set Warnings "-register-all".

(** Numbers are restricted to integers; [JObj] lists the own properties
    of the parsed object (first binding wins in [prop]). *)
Inductive json : Type :=
| JNull
| JBool (b : bool)
| JNum (n : Z)
| JStr (s : string)
| JArr (items : list json)
| JObj (fields : list (string * json)).

(** A string seen through [JSON.parse]: either the parser throws
    ([Malformed], which also covers the empty string) or it yields a value. *)
Inductive Text : Type :=
| Malformed
| WellFormed (v : json).

Fixpoint assoc (k : string) (fields : list (string * json)) : option json :=
  match fields with
  | [] => None
  | (k', v) :: rest => if String.eqb k k' then Some v else assoc k rest
  end.

(** [v.k] for a [v] that is not [null]; [None] is [undefined]. None of
    the keys read by the hook is a built-in property of strings, numbers
    or arrays. *)
Definition prop (v : json) (k : string) : option json :=
  match v with
  | JObj fields => assoc k fields
  | _ => None
  end.

(** [v?.k] where [v] may be [undefined] or [null]. *)
Definition opt_chain (v : option json) (k : string) : option json :=
  match v with
  | None => None
  | Some JNull => None
  | Some o => prop o k
  end.

Definition truthy (v : option json) : bool :=
  match v with
  | None => false
  | Some JNull => false
  | Some (JBool b) => b
  | Some (JNum n) => negb (n =? 0)
  | Some (JStr s) => negb (String.eqb s "")
  | Some (JArr _) => true
  | Some (JObj _) => true
  end.

(** [a || b] *)
Definition or_else (a b : option json) : option json :=
  if truthy a then a else b.

(** Whether converting [v] to a string (as a template literal does)
    succeeds. A parsed object with an own [toString] property, which is
    never callable, makes the conversion throw a TypeError; an array
    converts its elements in turn. *)
Fixpoint to_string_ok (v : json) : bool :=
  match v with
  | JObj fields =>
      match assoc "toString" fields with
      | Some _ => false
      | None => true
      end
  | JArr items => forallb to_string_ok items
  | _ => true
  end.

(** A template literal interpolating [vals] evaluates without throwing. *)
Definition template_ok (vals : list (option json)) : bool :=
  forallb (fun v => match v with Some j => to_string_ok j | None => true end) vals.

End Js.
Import Js.

(** ** Options of the hook *)

Record Options : Type := mkOptions {
  autoConnect : bool;
  reconnectAttempts : Z;
  reconnectInterval : Z
}.

Definition defaultOptions : Options :=
  {| autoConnect := true; reconnectAttempts := 5; reconnectInterval := 3000 |}.

(** ** Browser objects *)

Inductive ReadyState : Type := CONNECTING | OPEN | CLOSING | CLOSED.

(** Which handlers a socket carries: those installed by [openConnection]
    inside the effect, or those installed by the imperative [connect]. *)
Inductive Origin : Type := ByEffect | ByConnect.

Record Socket : Type := mkSocket {
  readyState : ReadyState;
  origin : Origin;
  urlToken : json          (* the token interpolated into the URL *)
}.

Inductive TimerStatus : Type := Pending | Fired | Cleared.

(** Who called [setTimeout]: [ws.onclose] (a retry) or
    [handleStorageChange] (the 100 ms delay after a token change). *)
Inductive Scheduler : Type := Retry | TokenChange.

Record Timer : Type := mkTimer {
  delay : Z;
  status : TimerStatus;
  scheduledBy : Scheduler
}.

Definition is_pending (t : Timer) : bool :=
  match status t with Pending => true | _ => false end.

(** ** Calls made on collaborators *)

Inductive Effect : Type :=
| ConsoleLog (msg : string)
| ConsoleWarn (msg : string)
| ConsoleError (msg : string)
| InvalidateQueries (queryKey : list (option json))
| Toast (variant : option json) (title : option json)
| AddNotification (type : string) (title : option json) (data : option json)
| NewWebSocket (sock : nat) (token : json)
| WsSend (sock : nat) (data : json)      (* ws.send(JSON.stringify(data)) *)
| WsClose (sock : nat) (code : Z) (reason : string)
| SetTimeout (timer : nat) (ms : Z)
| ClearTimeout (timer : nat).

Definition is_console (e : Effect) : bool :=
  match e with
  | ConsoleLog _ | ConsoleWarn _ | ConsoleError _ => true
  | _ => false
  end.

(** ** State of the hook together with its browser environment *)

Record State : Type := mkState {
  wsRef : option nat;                 (* wsRef.current, an index in [sockets] *)
  reconnectCountRef : Z;              (* reconnectCountRef.current *)
  reconnectTimeoutRef : option nat;   (* reconnectTimeoutRef.current *)
  isConnected : bool;
  lastMessage : json;                 (* [JNull] is JavaScript's null *)
  disposed : bool;
  sockets : list Socket;              (* every WebSocket ever constructed *)
  timers : list Timer;                (* every timer ever set *)
  authData : option Text              (* localStorage['sliverui-auth'] *)
}.

Definition set_wsRef (v : option nat) (st : State) : State :=
  mkState v (reconnectCountRef st) (reconnectTimeoutRef st) (isConnected st)
          (lastMessage st) (disposed st) (sockets st) (timers st) (authData st).
Definition set_reconnectCount (v : Z) (st : State) : State :=
  mkState (wsRef st) v (reconnectTimeoutRef st) (isConnected st)
          (lastMessage st) (disposed st) (sockets st) (timers st) (authData st).
Definition set_reconnectTimeout (v : option nat) (st : State) : State :=
  mkState (wsRef st) (reconnectCountRef st) v (isConnected st)
          (lastMessage st) (disposed st) (sockets st) (timers st) (authData st).
Definition setIsConnected (v : bool) (st : State) : State :=
  mkState (wsRef st) (reconnectCountRef st) (reconnectTimeoutRef st) v
          (lastMessage st) (disposed st) (sockets st) (timers st) (authData st).
Definition setLastMessage (v : json) (st : State) : State :=
  mkState (wsRef st) (reconnectCountRef st) (reconnectTimeoutRef st) (isConnected st)
          v (disposed st) (sockets st) (timers st) (authData st).
Definition set_disposed (v : bool) (st : State) : State :=
  mkState (wsRef st) (reconnectCountRef st) (reconnectTimeoutRef st) (isConnected st)
          (lastMessage st) v (sockets st) (timers st) (authData st).
Definition set_sockets (v : list Socket) (st : State) : State :=
  mkState (wsRef st) (reconnectCountRef st) (reconnectTimeoutRef st) (isConnected st)
          (lastMessage st) (disposed st) v (timers st) (authData st).
Definition set_timers (v : list Timer) (st : State) : State :=
  mkState (wsRef st) (reconnectCountRef st) (reconnectTimeoutRef st) (isConnected st)
          (lastMessage st) (disposed st) (sockets st) v (authData st).
Definition set_authData (v : option Text) (st : State) : State :=
  mkState (wsRef st) (reconnectCountRef st) (reconnectTimeoutRef st) (isConnected st)
          (lastMessage st) (disposed st) (sockets st) (timers st) v.

(** State before the effect runs. *)
Definition initial (auth : option Text) : State :=
  mkState None 0 None false JNull false [] [] auth.

(** [wsRef.current?.readyState] *)
Definition current_readyState (st : State) : option ReadyState :=
  match wsRef st with
  | Some i => readyState <$> (sockets st !! i)
  | None => None
  end.

Definition is_open (st : State) : bool :=
  match current_readyState st with
  | Some OPEN => true
  | _ => false
  end.

(** ** The hook's functions *)

Definition AUTH_KEY : string := "sliverui-auth".

(** [getToken()]: any exception (a parse error, or [parsed] being null)
    is swallowed and yields [null]. *)
Definition getToken (auth : option Text) : option json :=
  match auth with
  | None => None
  | Some Malformed => None
  | Some (WellFormed JNull) => None
  | Some (WellFormed parsed) =>
      let token := opt_chain (prop parsed "state") "accessToken" in
      if truthy token then token else None
  end.

(** A socket after [close()] was called on it: one that is connecting or
    open starts closing; the close event itself arrives later from the
    browser, with whatever code the browser reports. *)
Definition closing (s : Socket) : Socket :=
  mkSocket (match readyState s with
            | CONNECTING | OPEN => CLOSING
            | other => other
            end) (origin s) (urlToken s).

(** [ws.close(1000, reason)] on socket [i]. *)
Definition ws_close (i : nat) (reason : string) (st : State) : State * list Effect :=
  match sockets st !! i with
  | Some s => (set_sockets (<[i := closing s]> (sockets st)) st, [WsClose i 1000 reason])
  | None => (st, [WsClose i 1000 reason])
  end.

(** [clearTimeout(id)] on the browser's timer table. *)
Definition clearTimeout (t : nat) (tms : list Timer) : list Timer :=
  match tms !! t with
  | Some tm =>
      if is_pending tm then <[t := mkTimer (delay tm) Cleared (scheduledBy tm)]> tms
      else tms
  | None => tms
  end.

(** [if (reconnectTimeoutRef.current) { clearTimeout(..); ..current = null }] *)
Definition clear_reconnect_timeout (st : State) : State * list Effect :=
  match reconnectTimeoutRef st with
  | Some t =>
      (set_reconnectTimeout None (set_timers (clearTimeout t (timers st)) st),
       [ClearTimeout t])
  | None => (st, [])
  end.

(** [if (wsRef.current) { wsRef.current.close(1000, reason); ..current = null }] *)
Definition close_current (reason : string) (st : State) : State * list Effect :=
  match wsRef st with
  | Some i =>
      let '(st1, eff) := ws_close i reason st in
      (set_wsRef None st1, eff)
  | None => (st, [])
  end.

(** [new WebSocket(buildWebSocketUrl())] followed by [wsRef.current = ws];
    the constructor is taken not to throw. *)
Definition new_socket (o : Origin) (token : json) (st : State) : State * list Effect :=
  let i := length (sockets st) in
  (set_wsRef (Some i) (set_sockets (sockets st ++ [mkSocket CONNECTING o token]) st),
   [NewWebSocket i token]).

Definition openConnection (st : State) : State * list Effect :=
  if disposed st then (st, [])
  else if is_open st then (st, [])
  else match getToken (authData st) with
       | None => (st, [ConsoleLog "No token available for WebSocket connection"])
       | Some token => new_socket ByEffect token st
       end.

(** [ws.onopen], for either kind of socket. *)
Definition onopen (o : Origin) (st : State) : State * list Effect :=
  let st' := set_reconnectCount 0 (setIsConnected true st) in
  match o with
  | ByEffect => (st', [ConsoleLog "WebSocket connected"])
  | ByConnect => (st', [])
  end.

(** [ws.onclose]. The socket installed by [connect] only clears the
    flag and the reference. *)
Definition onclose (opts : Options) (o : Origin) (code : Z) (st : State)
  : State * list Effect :=
  let st1 := set_wsRef None (setIsConnected false st) in
  match o with
  | ByConnect => (st1, [])
  | ByEffect =>
      if negb (disposed st1) && negb (code =? 1000)
         && (reconnectCountRef st1 <? reconnectAttempts opts)
      then
        let st2 := set_reconnectCount (reconnectCountRef st1 + 1) st1 in
        let t := length (timers st2) in
        (set_reconnectTimeout (Some t)
           (set_timers (timers st2 ++ [mkTimer (reconnectInterval opts) Pending Retry]) st2),
         [ConsoleLog "WebSocket closed:"; ConsoleLog "Attempting reconnection";
          SetTimeout t (reconnectInterval opts)])
      else (st1, [ConsoleLog "WebSocket closed:"])
  end.

(** Sequencing of two steps of a callback, collecting the calls made. *)
Definition andThen (f g : State -> State * list Effect) (st : State)
  : State * list Effect :=
  let '(st1, e1) := f st in
  let '(st2, e2) := g st1 in
  (st2, e1 ++ e2).

Definition update (f : State -> State) (st : State) : State * list Effect :=
  (f st, []).

Notation "f >>> g" := (andThen f g) (at level 65, right associativity).

Definition str (s : string) : option json := Some (JStr s).

Definition recognized_events : list string :=
  ["connected"; "session.new"; "session.lost"; "beacon.new"; "beacon.checkin";
   "task_completed"; "notification"; "ping"; "pong"; "subscribed"; "error"].

Definition PARSE_FAILED : string := "Failed to parse WebSocket message:".
Definition UNKNOWN_EVENT : string := "Unknown WebSocket event:".

(** A call whose argument holds a template literal interpolating
    [vals]: the argument is built, the call is made and the handler goes
    on with [rest]; if the interpolation throws, control passes to the
    [catch] of [handleMessage], which logs. *)
Definition attempt (vals : list (option json)) (call : Effect) (rest : list Effect)
  : list Effect :=
  if template_ok vals then call :: rest else [ConsoleError PARSE_FAILED].

(** The [switch (message.event)] of [handleMessage] for a string tag;
    [data] is [message.data]. The interpolated description texts of
    toasts and notifications are not carried, only whether building them
    throws. *)
Definition dispatch (ev : string) (data : option json) : list Effect :=
  let who := or_else (opt_chain data "name") (opt_chain data "id") in
  let from := or_else (opt_chain data "remote_address") (str "unknown") in
  if String.eqb ev "connected" then
    [ConsoleLog "WebSocket connected, sliver status:"]
  else if String.eqb ev "session.new" then
    [InvalidateQueries [str "sessions"]; InvalidateQueries [str "dashboard-stats"]]
    ++ attempt [who; from] (Toast None (str "New Session Connected"))
         (attempt [who; from] (AddNotification "session" (str "New Session") data) [])
  else if String.eqb ev "session.lost" then
    [InvalidateQueries [str "sessions"]; InvalidateQueries [str "dashboard-stats"]]
    ++ attempt [opt_chain data "id"]
         (Toast (str "destructive") (str "Session Disconnected"))
         (attempt [opt_chain data "id"]
            (AddNotification "warning" (str "Session Disconnected") data) [])
  else if String.eqb ev "beacon.new" then
    [InvalidateQueries [str "beacons"]; InvalidateQueries [str "dashboard-stats"]]
    ++ attempt [who] (Toast None (str "New Beacon"))
         (attempt [who; from] (AddNotification "beacon" (str "New Beacon") data) [])
  else if String.eqb ev "beacon.checkin" then
    [InvalidateQueries [str "beacons"]; InvalidateQueries [str "dashboard-stats"]]
  else if String.eqb ev "task_completed" then
    [InvalidateQueries [str "beacon-tasks"; opt_chain data "beacon_id"]]
    ++ attempt [opt_chain data "task_type"; opt_chain data "beacon_name"]
         (Toast None (str "Task Completed"))
         (attempt [opt_chain data "task_type"; opt_chain data "beacon_name"]
            (AddNotification "info" (str "Task Completed") data) [])
  else if String.eqb ev "notification" then
    [Toast (or_else (opt_chain data "variant") (str "default")) (opt_chain data "title");
     AddNotification
       (match opt_chain data "variant" with
        | Some (JStr v) => if String.eqb v "destructive" then "error" else "info"
        | _ => "info"
        end)
       (opt_chain data "title") data]
  else if String.eqb ev "ping" then []
  else if String.eqb ev "pong" then []
  else if String.eqb ev "subscribed" then []
  else if String.eqb ev "error" then [ConsoleError "WebSocket error:"]
  else [ConsoleLog UNKNOWN_EVENT].

(** [handleMessage]: [payload] is [event.data] seen through [JSON.parse].
    For a parsed [null], [setLastMessage] has run when reading
    [message.event] throws; the [catch] logs it like a parse error. *)
Definition handleMessage (payload : Text) (st : State) : State * list Effect :=
  match payload with
  | Malformed => (st, [ConsoleError PARSE_FAILED])
  | WellFormed message =>
      let st1 := setLastMessage message st in
      match message with
      | JNull => (st1, [ConsoleError PARSE_FAILED])
      | _ =>
          match prop message "event" with
          | Some (JStr ev) => (st1, dispatch ev (prop message "data"))
          | _ => (st1, [ConsoleLog UNKNOWN_EVENT])
          end
      end
  end.

(** [setTimeout(openConnection, ms)]; only [ws.onclose] stores the handle. *)
Definition setTimeout (ms : Z) (by_ : Scheduler) (st : State) : State * list Effect :=
  let t := length (timers st) in
  (set_timers (timers st ++ [mkTimer ms Pending by_]) st, [SetTimeout t ms]).

(** The tail of [handleStorageChange]: reconnect if the new value holds a token. *)
Definition reconnect_if_token (newValue : option Text) (st : State)
  : State * list Effect :=
  match newValue with
  | Some (WellFormed JNull) => (st, [])
  | Some (WellFormed parsed) =>
      if truthy (opt_chain (prop parsed "state") "accessToken")
      then (update (set_reconnectCount 0) >>> setTimeout 100 TokenChange) st
      else (st, [])
  | _ => (st, [])
  end.

Definition handleStorageChange (key : option string) (newValue : option Text)
  : State -> State * list Effect :=
  match key with
  | Some k =>
      if String.eqb k AUTH_KEY then
        clear_reconnect_timeout >>> close_current "Token changed" >>>
        update (setIsConnected false) >>> reconnect_if_token newValue
      else update id
  | None => update id
  end.

(** The cleanup function returned by the effect. *)
Definition cleanup : State -> State * list Effect :=
  update (set_disposed true) >>> clear_reconnect_timeout >>>
  close_current "Component unmounted" >>> update (setIsConnected false).

Definition connect : State -> State * list Effect :=
  close_current "Manual reconnect" >>> update (set_reconnectCount 0) >>>
  (fun st => match getToken (authData st) with
             | None => (st, [])
             | Some token => new_socket ByConnect token st
             end).

Definition disconnect : State -> State * list Effect :=
  clear_reconnect_timeout >>> close_current "User initiated disconnect" >>>
  update (setIsConnected false).

Definition send (data : json) (st : State) : State * list Effect :=
  match wsRef st with
  | Some i =>
      if is_open st then (st, [WsSend i data])
      else (st, [ConsoleWarn "WebSocket is not connected"])
  | None => (st, [ConsoleWarn "WebSocket is not connected"])
  end.

(** The effect body on mount. *)
Definition mount (opts : Options) (auth : option Text) : State * list Effect :=
  if autoConnect opts then openConnection (initial auth) else (initial auth, []).

(** ** Events delivered to the hook *)

Inductive Event : Type :=
| SocketOpen (i : nat)
| SocketMessage (i : nat) (payload : Text)
| SocketError (i : nat)
| SocketClose (i : nat) (code : Z)
| TimerFire (t : nat)
| StorageEvent (key : option string) (newValue : option Text)
| LocalStorageSet (v : option Text)    (* a write in this tab: no storage event *)
| Connect
| Disconnect
| Send (data : json)
| Unmount
| SocketClosing (i : nat).    (* the peer starts the closing handshake *)

Definition set_readyState (i : nat) (rs : ReadyState) (st : State) : State :=
  match sockets st !! i with
  | Some s => set_sockets (<[i := mkSocket rs (origin s) (urlToken s)]> (sockets st)) st
  | None => st
  end.

Definition mark_fired (t : nat) (st : State) : State :=
  match timers st !! t with
  | Some tm => set_timers (<[t := mkTimer (delay tm) Fired (scheduledBy tm)]> (timers st)) st
  | None => st
  end.

(** What localStorage holds for the auth key after a storage event
    ([key = null] is [localStorage.clear()]). *)
Definition stored_after (key : option string) (newValue : option Text)
  (old : option Text) : option Text :=
  match key with
  | None => None
  | Some k => if String.eqb k AUTH_KEY then newValue else old
  end.

(** One event. [None]: the browser cannot deliver this event in this
    state (an open event on a socket that is not connecting, a message on
    a socket that is not open, a close event on a closed socket, a timer
    that is not pending). [SocketClosing] is the ready state going from
    OPEN to CLOSING when the peer starts the closing handshake, before
    the close event. The effect runs once: a second run after a cleanup
    is not among the events. *)
Definition deliver (opts : Options) (st : State) (e : Event)
  : option (State * list Effect) :=
  match e with
  | SocketOpen i =>
      match sockets st !! i with
      | Some s =>
          match readyState s with
          | CONNECTING => Some (onopen (origin s) (set_readyState i OPEN st))
          | _ => None
          end
      | None => None
      end
  | SocketMessage i payload =>
      match sockets st !! i with
      | Some s =>
          match readyState s, origin s with
          | OPEN, ByEffect => Some (handleMessage payload st)
          | OPEN, ByConnect => Some (st, [])       (* no onmessage handler *)
          | _, _ => None
          end
      | None => None
      end
  | SocketError i =>
      match sockets st !! i with
      | Some s =>
          match readyState s with
          | CLOSED => None
          | _ => Some (st, [ConsoleError "WebSocket error:"])
          end
      | None => None
      end
  | SocketClose i code =>
      match sockets st !! i with
      | Some s =>
          match readyState s with
          | CLOSED => None
          | _ => Some (onclose opts (origin s) code (set_readyState i CLOSED st))
          end
      | None => None
      end
  | TimerFire t =>
      match timers st !! t with
      | Some tm =>
          if is_pending tm then Some (openConnection (mark_fired t st)) else None
      | None => None
      end
  | StorageEvent key newValue =>
      let st1 := set_authData (stored_after key newValue (authData st)) st in
      if autoConnect opts && negb (disposed st)
      then Some (handleStorageChange key newValue st1)
      else Some (st1, [])
  | LocalStorageSet v => Some (set_authData v st, [])
  | Connect => Some (connect st)
  | Disconnect => Some (disconnect st)
  | Send data => Some (send data st)
  | Unmount =>
      if autoConnect opts && negb (disposed st) then Some (cleanup st) else None
  | SocketClosing i =>
      match sockets st !! i with
      | Some s =>
          match readyState s with
          | OPEN => Some (set_readyState i CLOSING st, [])   (* no handler runs *)
          | _ => None
          end
      | None => None
      end
  end.

Fixpoint run (opts : Options) (st : State) (evs : list Event)
  : option (State * list Effect) :=
  match evs with
  | [] => Some (st, [])
  | e :: rest =>
      match deliver opts st e with
      | Some (st1, e1) =>
          match run opts st1 rest with
          | Some (st2, e2) => Some (st2, e1 ++ e2)
          | None => None
          end
      | None => None
      end
  end.

(** States the hook can be in: mounted once, then any deliverable events. *)
Definition reachable (opts : Options) (st : State) : Prop :=
  exists auth evs eff, run opts (fst (mount opts auth)) evs = Some (st, eff).

(** ** Vocabulary of the properties *)

Definition sample_token : option Text :=
  Some (WellFormed (JObj [("state", JObj [("accessToken", JStr "abc")])])).

(** The hook just mounted with the default options and a stored token:
    socket 0 is connecting. *)
Definition mounted : State := fst (mount defaultOptions sample_token).

Definition state_after (st : State) (evs : list Event) : State :=
  match run defaultOptions st evs with
  | Some (st', _) => st'
  | None => st
  end.

(** Socket 0 has opened. *)
Definition open_state : State := state_after mounted [SocketOpen 0%nat].

(** Socket 0 has opened and the peer has started to close it. *)
Definition peer_closing : State :=
  state_after mounted [SocketOpen 0%nat; SocketClosing 0%nat].

(** [message.event], when reading it does not throw. *)
Definition event_of (message : json) : option json :=
  match message with
  | JNull => None
  | _ => prop message "event"
  end.

Definition is_recognized (ev : option json) : bool :=
  match ev with
  | Some (JStr s) => existsb (String.eqb s) recognized_events
  | _ => false
  end.

(** [connect()] was called on the mounted hook and its socket (1) opened. *)
Definition manual_open_state : State := state_after mounted [Connect; SocketOpen 1%nat].

(** The first connection attempt failed: retry 1 is pending. *)
Definition one_failure : State := state_after mounted [SocketClose 0 1006].

(** The timer table after [clear_reconnect_timeout]. *)
Definition cleared_timers (st : State) : list Timer :=
  match reconnectTimeoutRef st with
  | Some t => clearTimeout t (timers st)
  | None => timers st
  end.

(** The socket table after [close_current]. *)
Definition closing_sockets (st : State) : list Socket :=
  match wsRef st with
  | Some i =>
      match sockets st !! i with
      | Some s => <[i := closing s]> (sockets st)
      | None => sockets st
      end
  | None => sockets st
  end.

(** The stored value after a logout: the persisted store without a token. *)
Definition logged_out : option Text :=
  Some (WellFormed (JObj [("state", JObj [("accessToken", JNull)])])).

Definition other_token : option Text :=
  Some (WellFormed (JObj [("state", JObj [("accessToken", JStr "xyz")])])).

(** The spec's formula for the delay before a reconnect attempt:
    [min(base * 2^retryCount, cap) + jitter]. *)
Definition spec_delay (base cap retryCount jitter : Z) : Z :=
  Z.min (base * 2 ^ retryCount) cap + jitter.

(** The timer [ws.onclose] sets. *)
Definition retry_timer (opts : Options) : Timer :=
  mkTimer (reconnectInterval opts) Pending Retry.

(** Delays of the retry timers set so far, oldest first. *)
Definition retry_delays (st : State) : list Z :=
  List.map delay
    (List.filter (fun tm => match scheduledBy tm with Retry => true | _ => false end)
                 (timers st)).

(** [n] consecutive failures of the automatic path: socket [k] closes
    abnormally, retry timer [k] fires and opens socket [k+1]. *)
Fixpoint failures_from (k : nat) (n : nat) : list Event :=
  match n with
  | O => []
  | S n' => SocketClose k 1006 :: TimerFire k :: failures_from (S k) n'
  end.

(** The retry budget is used up and nothing is in flight: no live socket
    and no pending timer. *)
Definition exhausted (opts : Options) (st : State) : Prop :=
  reconnectCountRef st = reconnectAttempts opts
  /\ Forall (fun s => readyState s = CLOSED) (sockets st)
  /\ Forall (fun tm => status tm <> Pending) (timers st).

(** The explicit triggers: a manual [connect()] or a storage event for
    the auth key. *)
Definition is_trigger (e : Event) : bool :=
  match e with
  | Connect => true
  | StorageEvent (Some k) _ => String.eqb k AUTH_KEY
  | _ => false
  end.

(** Two sockets of [openConnection] alive at once (a manual [connect()]
    raced a retry timer, then a token change opened another one), both
    failed: retry timers 2 and 3 are pending, only 3 is stored. *)
Definition two_retries_pending : State :=
  state_after mounted
    [SocketClose 0 1006; Connect; TimerFire 0; SocketOpen 2%nat; SocketClose 1 1006;
     StorageEvent (Some AUTH_KEY) other_token; TimerFire 1;
     SocketClose 2 1006; SocketClose 3 1006].

(** Six consecutive failures with the default options. *)
Definition six_failures : State :=
  state_after mounted (failures_from 0 5 ++ [SocketClose 5 1006]).

(** A retry timer carries the configured interval. *)
Definition timer_shape (opts : Options) (tm : Timer) : Prop :=
  scheduledBy tm = Retry -> delay tm = reconnectInterval opts.

(** The callback [h] keeps the state property [I]. *)
Definition keeps (I : State -> Prop) (h : State -> State * list Effect) : Prop :=
  forall st, I st -> I (fst (h st)).

(** ** Tunnels: the stop path *)

Module Tunnels.

Inductive TunnelState : Type := Starting | Active | Stopping | Closed | Failed.
Inductive Kind : Type := Socks5 | Forward.

(** Modelled from the spec: the Tunnel record of the data model; the
    tunnel manager itself is server code that is not among the sources. *)
Record Tunnel : Type := mkTunnel {
  kind : Kind;
  sessionId : string;
  localPort : Z;
  remotePort : Z;
  state : TunnelState;
  createdAt : Z;
  bytesIn : Z;
  bytesOut : Z
}.

Definition set_state (s : TunnelState) (t : Tunnel) : Tunnel :=
  mkTunnel (kind t) (sessionId t) (localPort t) (remotePort t) s
           (createdAt t) (bytesIn t) (bytesOut t).

(** Modelled from the spec: the error taxonomy of the design. *)
Inductive ErrorKind : Type :=
| SessionUnavailable | PortInUse | ChannelOpenFailed | ProtocolViolation
| DestinationUnreachable | MaxRetriesExceeded | TunnelFailed.

Inductive StopResult : Type := Ok | Error (e : ErrorKind).

(** Modelled from the spec: what tearing a tunnel down does. *)
Inductive Teardown : Type :=
| Transition (tunnelId : nat) (to : TunnelState)
| CloseListener (port : Z)
| TransportClose (tunnelId : nat)
| ForceCloseSubStreams (tunnelId : nat).

(** Modelled from the spec: [StopTunnel(sessionId, tunnelId)] of the
    tunnel manager, which is not among the sources (only its caller in
    CDPConnect.tsx is). Stopping a Closed or Failed tunnel returns
    success without side effects; an Active tunnel goes through Stopping
    to Closed, its listener is closed, the transport channel is closed
    and its sub-streams are force-closed. The spec leaves the other
    cases (unknown id, a tunnel still Starting or already Stopping) open:
    [other] decides their result. *)
Definition StopTunnel (other : option Tunnel -> StopResult)
  (sid : string) (tid : nat) (reg : gmap nat Tunnel)
  : StopResult * gmap nat Tunnel * list Teardown :=
  match reg !! tid with
  | Some t =>
      match state t with
      | Closed | Failed => (Ok, reg, [])
      | Active =>
          (Ok, <[tid := set_state Closed t]> reg,
           [Transition tid Stopping; CloseListener (localPort t);
            TransportClose tid; ForceCloseSubStreams tid; Transition tid Closed])
      | Starting | Stopping => (other (Some t), reg, [])
      end
  | None => (other None, reg, [])
  end.

(** [n] stop calls in a row on the same tunnel: the results and the
    teardown actions of each call, and the final registry. *)
Fixpoint stop_repeatedly (other : option Tunnel -> StopResult)
  (sid : string) (tid : nat) (n : nat) (reg : gmap nat Tunnel)
  : list (StopResult * list Teardown) * gmap nat Tunnel :=
  match n with
  | O => ([], reg)
  | S n' =>
      let '(r, reg1, td) := StopTunnel other sid tid reg in
      let '(rest, reg2) := stop_repeatedly other sid tid n' reg1 in
      ((r, td) :: rest, reg2)
  end.

(** The caller in CDPConnect.tsx. *)
Record CDPConnect : Type := mkCDPConnect {
  cdpActive : bool;
  tunnelId : option nat;
  cdpUrls : option (string * string * string * string)
}.

Inductive UiToast : Type :=
| ToastStopped                      (* 'CDP tunnel stopped' *)
| ToastStopFailed (message : string).  (* destructive 'Failed to stop CDP tunnel' *)

Inductive ApiResult : Type := ApiOk | ApiError (message : string).

(** [stopMutation.mutate()]: [mutationFn] throws without a tunnel id,
    otherwise calls [browserOpsApi.stopCDP]; then [onSuccess] or [onError]. *)
Definition stopMutation (stopCDP : string -> nat -> ApiResult)
  (session : string) (c : CDPConnect) : CDPConnect * UiToast :=
  match tunnelId c with
  | None => (c, ToastStopFailed "No active tunnel")
  | Some tid =>
      match stopCDP session tid with
      | ApiOk => (mkCDPConnect false None None, ToastStopped)
      | ApiError msg => (c, ToastStopFailed msg)
      end
  end.

Definition sample_registry : gmap nat Tunnel :=
  {[ 7%nat := mkTunnel Forward "abc" 9222 9222 Active 0 0 0 ]}.

Definition always_failed (_ : option Tunnel) : StopResult := Error TunnelFailed.

End Tunnels.

(** Events after which the retry counter is 0 again: a socket opening,
    or an explicit trigger. *)
Definition resets_counter (e : Event) : bool :=
  match e with
  | SocketOpen _ => true
  | _ => is_trigger e
  end.

(** ** Vocabulary of the further properties of the hook *)

(** Calls that act on a socket or on a timer. *)
Definition is_transport (e : Effect) : bool :=
  match e with
  | NewWebSocket _ _ | WsSend _ _ | WsClose _ _ _ | SetTimeout _ _ | ClearTimeout _ => true
  | _ => false
  end.

Definition is_toast (e : Effect) : bool :=
  match e with Toast _ _ => true | _ => false end.

Definition is_notification (e : Effect) : bool :=
  match e with AddNotification _ _ _ => true | _ => false end.

Definition count_if (p : Effect -> bool) (effs : list Effect) : nat :=
  length (List.filter p effs).

(** [queryClient.invalidateQueries({ queryKey: [name] })] is among the calls. *)
Definition invalidates (name : string) (effs : list Effect) : Prop :=
  In (InvalidateQueries [str name]) effs.

(** What one event can do to the sockets, the reference and the
    connected flag. *)
Inductive conn_step (st st' : State) : Prop :=
| cs_same :
    sockets st' = sockets st -> wsRef st' = wsRef st ->
    isConnected st' = isConnected st -> conn_step st st'
| cs_opened (i : nat) (s : Socket) :
    sockets st !! i = Some s -> readyState s = CONNECTING ->
    sockets st' = <[i := mkSocket OPEN (origin s) (urlToken s)]> (sockets st) ->
    wsRef st' = wsRef st -> isConnected st' = true -> conn_step st st'
| cs_closed (i : nat) (s : Socket) :
    sockets st !! i = Some s -> readyState s <> CLOSED ->
    sockets st' = <[i := mkSocket CLOSED (origin s) (urlToken s)]> (sockets st) ->
    wsRef st' = None -> isConnected st' = false -> conn_step st st'
| cs_new (tok : json) :
    getToken (authData st) = Some tok -> disposed st = false -> is_open st = false ->
    sockets st' = sockets st ++ [mkSocket CONNECTING ByEffect tok] ->
    wsRef st' = Some (length (sockets st)) ->
    isConnected st' = isConnected st -> conn_step st st'
| cs_released :
    sockets st' = closing_sockets st -> wsRef st' = None ->
    isConnected st' = false -> conn_step st st'
| cs_replaced (tok : json) :
    getToken (authData st) = Some tok ->
    sockets st' = closing_sockets st ++ [mkSocket CONNECTING ByConnect tok] ->
    wsRef st' = Some (length (sockets st)) ->
    isConnected st' = isConnected st -> conn_step st st'
| cs_dropped :
    getToken (authData st) = None ->
    sockets st' = closing_sockets st -> wsRef st' = None ->
    isConnected st' = isConnected st -> conn_step st st'
| cs_closing (i : nat) (s : Socket) :
    sockets st !! i = Some s -> readyState s = OPEN ->
    sockets st' = <[i := mkSocket CLOSING (origin s) (urlToken s)]> (sockets st) ->
    wsRef st' = wsRef st -> isConnected st' = isConnected st -> conn_step st st'.

(** The reference held by the hook designates a socket that exists and
    has not closed. *)
Definition ref_is_live (st : State) : Prop :=
  forall i, wsRef st = Some i ->
    exists s, sockets st !! i = Some s /\ readyState s <> CLOSED.

(** Every socket was opened with a usable token in its URL. *)
Definition sockets_have_token (st : State) : Prop :=
  Forall (fun s => truthy (Some (urlToken s)) = true) (sockets st).

(** The connected flag is backed by a socket that has opened and whose
    close event has not been delivered yet. *)
Definition flag_is_backed (st : State) : Prop :=
  isConnected st = true ->
  exists i s, sockets st !! i = Some s
              /\ (readyState s = OPEN \/ readyState s = CLOSING).

Definition is_connect (e : Event) : bool :=
  match e with Connect => true | _ => false end.

Definition NOT_CONNECTED : string := "WebSocket is not connected".

(** ** The theme hook [useTheme] *)

Module Theme.

(** [resolveTheme(theme)]; [prefersDark] is what
    [matchMedia('(prefers-color-scheme: dark)').matches] returns. The
    theme is a string: the value read from localStorage is cast to
    [Theme] without a check. *)
Definition resolveTheme (prefersDark : bool) (theme : string) : string :=
  if String.eqb theme "system"
  then (if prefersDark then "dark" else "light")
  else theme.

(** [classList.remove(token)] and [classList.add(token)] on the ordered
    token set of an element. *)
Definition class_remove (token : string) (classes : list string) : list string :=
  List.filter (fun c => negb (String.eqb c token)) classes.

Definition class_add (token : string) (classes : list string) : list string :=
  if existsb (String.eqb token) classes then classes else classes ++ [token].

(** [applyToDOM(effective)] on the class list of the document root. *)
Definition applyToDOM (effective : string) (classes : list string) : list string :=
  class_add effective (class_remove "dark" (class_remove "light" classes)).

(** The hook after a render: its state, the memoized [resolvedTheme]
    (recomputed only when [theme] changes), localStorage['theme'] and
    the class list of the root. *)
Record State : Type := mkState {
  theme : string;
  resolvedTheme : string;
  stored : option string;
  classes : list string
}.

(** The initializer of [useState]: [localStorage.getItem('theme') || 'dark']. *)
Definition initialTheme (stored : option string) : string :=
  match stored with
  | Some s => if String.eqb s "" then "dark" else s
  | None => "dark"
  end.

(** First render. *)
Definition mount (prefersDark : bool) (stored : option string) (classes : list string)
  : State :=
  let t := initialTheme stored in
  let r := resolveTheme prefersDark t in
  mkState t r stored (applyToDOM r classes).

(** [setTheme(newTheme)] and the render that follows: the memo is
    recomputed only if [theme] changed. *)
Definition setTheme (prefersDark : bool) (newTheme : string) (st : State) : State :=
  let r := if String.eqb newTheme (theme st) then resolvedTheme st
           else resolveTheme prefersDark newTheme in
  mkState newTheme r (Some newTheme) (applyToDOM r (classes st)).

Definition toggleTheme (prefersDark : bool) (st : State) : State :=
  setTheme prefersDark
    (if String.eqb (resolvedTheme st) "dark" then "light" else "dark") st.

(** The memo agrees with the theme: an explicit theme resolves to
    itself, ['system'] to one of the two concrete themes. *)
Definition memo_ok (st : State) : Prop :=
  (theme st <> "system" -> resolvedTheme st = theme st)
  /\ (theme st = "system" -> resolvedTheme st = "dark" \/ resolvedTheme st = "light").

Inductive Action : Type :=
| SetTheme (newTheme : string)
| ToggleTheme.

(** A sequence of user actions, each under the OS preference of its time. *)
Fixpoint run (acts : list (bool * Action)) (st : State) : State :=
  match acts with
  | [] => st
  | (pd, SetTheme t) :: rest => run rest (setTheme pd t st)
  | (pd, ToggleTheme) :: rest => run rest (toggleTheme pd st)
  end.

End Theme.

(** ** The CDP panel [CDPConnect] as a state machine *)

Module CDP.

Record CDPUrls : Type := mkUrls {
  local_url : string;
  devtools_frontend : string;
  ws_debug_url : string;
  json_url : string
}.

(** The body of a successful [startCDP] response; the URL fields may be
    missing. *)
Record StartResponse : Type := mkResponse {
  tunnel_id : nat;
  r_local_url : option string;
  r_devtools_frontend : option string;
  r_ws_debug_url : option string;
  r_json_url : option string
}.

Inductive Request : Type :=
| StartCDP (session_id : string) (remote_port local_port : Z)
| StopCDP (session_id : string) (tunnel : nat).

(** The component: its five [useState] cells and the request in flight
    ([isPending] is [pending <> None]). *)
Record State : Type := mkState {
  remotePort : Z;
  localPort : Z;
  cdpActive : bool;
  tunnelId : option nat;
  cdpUrls : option CDPUrls;
  pending : option Request
}.

Definition initial : State := mkState 9222 9222 false None None None.

(** What [stopMutation] can fail with: the [Error('No active tunnel')]
    thrown by its [mutationFn], or the rejection of the API call. *)
Inductive StopError : Type :=
| NoActiveTunnel
| StopRejected (message : string).

(** Requests sent and toasts raised; the failure toasts show
    [getApiErrorMessage] of the error they carry. *)
Inductive Output : Type :=
| Sent (r : Request)
| ToastStarted (remote_port local_port : Z)
| ToastStartFailed (message : string)
| ToastStopped
| ToastStopFailed (error : StopError).

Inductive Event : Type :=
| Click                         (* the button, [handleToggle] *)
| SetRemotePort (v : Z)
| SetLocalPort (v : Z)
| StartOk (data : StartResponse)
| StopOk
| Failed (message : string).

(** [x ?? ''] *)
Definition or_empty (x : option string) : string :=
  match x with Some s => s | None => "" end.

Definition isPending (st : State) : bool :=
  match pending st with Some _ => true | None => false end.

(** One event. [None]: the event cannot happen: the button is disabled
    while a request is pending, the inputs while the tunnel is active or
    a request is pending, and a response needs its request. *)
Definition step (sessionId : string) (st : State) (e : Event)
  : option (State * list Output) :=
  match e with
  | Click =>
      if isPending st then None
      else if cdpActive st then
        match tunnelId st with
        | None => Some (st, [ToastStopFailed NoActiveTunnel])
        | Some tid =>
            let r := StopCDP sessionId tid in
            Some (mkState (remotePort st) (localPort st) (cdpActive st) (tunnelId st)
                          (cdpUrls st) (Some r), [Sent r])
        end
      else
        let r := StartCDP sessionId (remotePort st) (localPort st) in
        Some (mkState (remotePort st) (localPort st) (cdpActive st) (tunnelId st)
                      (cdpUrls st) (Some r), [Sent r])
  | SetRemotePort v =>
      if cdpActive st || isPending st then None
      else Some (mkState v (localPort st) (cdpActive st) (tunnelId st)
                         (cdpUrls st) (pending st), [])
  | SetLocalPort v =>
      if cdpActive st || isPending st then None
      else Some (mkState (remotePort st) v (cdpActive st) (tunnelId st)
                         (cdpUrls st) (pending st), [])
  | StartOk data =>
      match pending st with
      | Some (StartCDP _ _ _) =>
          Some (mkState (remotePort st) (localPort st) true (Some (tunnel_id data))
                  (Some (mkUrls (or_empty (r_local_url data))
                                (or_empty (r_devtools_frontend data))
                                (or_empty (r_ws_debug_url data))
                                (or_empty (r_json_url data))))
                  None,
                [ToastStarted (remotePort st) (localPort st)])
      | _ => None
      end
  | StopOk =>
      match pending st with
      | Some (StopCDP _ _) =>
          Some (mkState (remotePort st) (localPort st) false None None None,
                [ToastStopped])
      | _ => None
      end
  | Failed message =>
      match pending st with
      | Some (StartCDP _ _ _) =>
          Some (mkState (remotePort st) (localPort st) (cdpActive st) (tunnelId st)
                        (cdpUrls st) None, [ToastStartFailed message])
      | Some (StopCDP _ _) =>
          Some (mkState (remotePort st) (localPort st) (cdpActive st) (tunnelId st)
                        (cdpUrls st) None, [ToastStopFailed (StopRejected message)])
      | None => None
      end
  end.

Fixpoint run (sessionId : string) (st : State) (evs : list Event)
  : option (State * list Output) :=
  match evs with
  | [] => Some (st, [])
  | e :: rest =>
      match step sessionId st e with
      | Some (st1, o1) =>
          match run sessionId st1 rest with
          | Some (st2, o2) => Some (st2, o1 ++ o2)
          | None => None
          end
      | None => None
      end
  end.

(** The URL blocks shown under the panel. *)
Definition urlBlocks (st : State) : list (string * string) :=
  match cdpUrls st with
  | Some u => [("DevTools URL", devtools_frontend u); ("JSON Endpoint", json_url u);
               ("WebSocket URL", ws_debug_url u)]
  | None => []
  end.

(** The state in which a start request, if one is pending or has
    succeeded, was sent with the ports now shown. *)
Definition ports_as_requested (st : State) (requested : option (Z * Z)) : Prop :=
  cdpActive st = true \/ (exists sid r l, pending st = Some (StartCDP sid r l)) ->
  requested = Some (remotePort st, localPort st).

(** The three cells move together, and a pending request fits them. *)
Definition consistent (sessionId : string) (st : State) : Prop :=
  (cdpActive st = true <-> tunnelId st <> None)
  /\ (cdpActive st = true <-> cdpUrls st <> None)
  /\ (forall sid r l, pending st = Some (StartCDP sid r l) ->
        cdpActive st = false /\ sid = sessionId /\ r = remotePort st /\ l = localPort st)
  /\ (forall sid tid, pending st = Some (StopCDP sid tid) ->
        sid = sessionId /\ tunnelId st = Some tid).

(** Tunnels the server has opened for this component minus those it has
    closed, counted on the responses. *)
Fixpoint tunnels_held (evs : list Event) (held : Z) : Z :=
  match evs with
  | [] => held
  | StartOk _ :: rest => tunnels_held rest (held + 1)
  | StopOk :: rest => tunnels_held rest (held - 1)
  | _ :: rest => tunnels_held rest held
  end.

(** The ports of the last start request sent, if any. *)
Fixpoint last_start (outs : list Output) (acc : option (Z * Z)) : option (Z * Z) :=
  match outs with
  | [] => acc
  | Sent (StartCDP _ r l) :: rest => last_start rest (Some (r, l))
  | _ :: rest => last_start rest acc
  end.

(** The panel after the remote port was set to 9333 and a start succeeded. *)
Definition sample_active : State :=
  mkState 9333 9222 true (Some 7%nat) (Some (mkUrls "" "" "" "")) None.

End CDP.

(** The hook used with [autoConnect: false]: the effect never runs, so
    only [connect()] makes sockets. *)
Definition manual_only (st : State) : Prop :=
  timers st = []
  /\ Forall (fun s => origin s = ByConnect) (sockets st)
  /\ lastMessage st = JNull.

Definition manualOptions : Options :=
  {| autoConnect := false; reconnectAttempts := 5; reconnectInterval := 3000 |}.

(** Dispatch calls: what a handled frame can cause. *)
Definition is_dispatch (e : Effect) : bool :=
  match e with
  | InvalidateQueries _ | Toast _ _ | AddNotification _ _ _ => true
  | _ => false
  end.

(** The automatic path after [k] consecutive failures: sockets [0..k-1]
    closed, retry timers [0..k-1] fired, socket [k] connecting. *)
Definition retrying (opts : Options) (auth : option Text) (tok : json) (k : nat) : State :=
  mkState (Some k) (Z.of_nat k)
          (match k with O => None | S k' => Some k' end)
          false JNull false
          (repeat (mkSocket CLOSED ByEffect tok) k ++ [mkSocket CONNECTING ByEffect tok])
          (repeat (mkTimer (reconnectInterval opts) Fired Retry) k)
          auth.

(** After the failure that finds the budget used up. *)
Definition given_up (opts : Options) (auth : option Text) (tok : json) (m : nat) : State :=
  mkState None (Z.of_nat m)
          (match m with O => None | S m' => Some m' end)
          false JNull false
          (repeat (mkSocket CLOSED ByEffect tok) (S m))
          (repeat (mkTimer (reconnectInterval opts) Fired Retry) m)
          auth.

(** * Properties *)

(** ** Generic facts about runs *)

Lemma run_invariant (P : State -> Prop) (opts : Options) :
  (forall st e st' eff, P st -> deliver opts st e = Some (st', eff) -> P st') ->
  forall evs st st' eff, P st -> run opts st evs = Some (st', eff) -> P st'.
Proof.
  intros Hstep evs; induction evs as [|e rest IH]; intros st st' eff HP Hrun.
  - simpl in Hrun. inversion Hrun; subst; assumption.
  - simpl in Hrun.
    destruct (deliver opts st e) as [[st1 e1]|] eqn:Hd; [|discriminate].
    destruct (run opts st1 rest) as [[st2 e2]|] eqn:Hr; [|discriminate].
    inversion Hrun; subst. eapply IH; [|exact Hr]. eapply Hstep; eauto.
Qed.

Lemma reachable_invariant (P : State -> Prop) (opts : Options) :
  (forall auth, P (fst (mount opts auth))) ->
  (forall st e st' eff, P st -> deliver opts st e = Some (st', eff) -> P st') ->
  forall st, reachable opts st -> P st.
Proof.
  intros Hinit Hstep st (auth & evs & eff & Hrun).
  eapply run_invariant; eauto.
Qed.

Lemma run_app (opts : Options) (evs1 evs2 : list Event) (st : State) :
  run opts st (evs1 ++ evs2) =
  match run opts st evs1 with
  | Some (st1, e1) =>
      match run opts st1 evs2 with
      | Some (st2, e2) => Some (st2, e1 ++ e2)
      | None => None
      end
  | None => None
  end.
Proof.
  revert st; induction evs1 as [|e rest IH]; intros st; simpl.
  - destruct (run opts st evs2) as [[? ?]|]; reflexivity.
  - destruct (deliver opts st e) as [[st1 e1]|]; [|reflexivity].
    rewrite IH. destruct (run opts st1 rest) as [[st2 e2]|]; [|reflexivity].
    destruct (run opts st2 evs2) as [[st3 e3]|]; [|reflexivity].
    rewrite app_assoc. reflexivity.
Qed.

Lemma reachable_step (opts : Options) (st st' : State) (e : Event) (eff : list Effect) :
  reachable opts st -> deliver opts st e = Some (st', eff) -> reachable opts st'.
Proof.
  intros (auth & evs & eff0 & Hrun) Hd.
  exists auth, (evs ++ [e]), (eff0 ++ (eff ++ [])).
  rewrite run_app, Hrun. simpl. rewrite Hd. reflexivity.
Qed.

Lemma socket_eta (s : Socket) : mkSocket (readyState s) (origin s) (urlToken s) = s.
Proof. destruct s; reflexivity. Qed.

Lemma state_eta (st : State) :
  mkState (wsRef st) (reconnectCountRef st) (reconnectTimeoutRef st) (isConnected st)
          (lastMessage st) (disposed st) (sockets st) (timers st) (authData st) = st.
Proof. destruct st; reflexivity. Qed.

(** ** send *)

(** C9: [send(data)] on a socket that is not OPEN only warns on the
    console: the state is unchanged (nothing is buffered), no frame is
    sent and the call returns; on an OPEN socket it sends
    [JSON.stringify(data)] on that socket. *)
Theorem C9_send_requires_open (opts : Options) (st : State) (data : json) :
  (is_open st = false ->
   deliver opts st (Send data) = Some (st, [ConsoleWarn "WebSocket is not connected"]))
  /\ (forall i, wsRef st = Some i -> is_open st = true ->
      deliver opts st (Send data) = Some (st, [WsSend i data])).
Proof.
  split.
  - intros Hno. simpl. unfold send. rewrite Hno. destruct (wsRef st); reflexivity.
  - intros i Hi Ho. simpl. unfold send. rewrite Hi, Ho. reflexivity.
Qed.

Lemma C9_send_requires_open_witness :
  deliver defaultOptions mounted (Send (JStr "hello"))
  = Some (mounted, [ConsoleWarn "WebSocket is not connected"]).
Proof.
  apply (proj1 (C9_send_requires_open defaultOptions mounted (JStr "hello"))).
  reflexivity.
Defined.

(** ** handleMessage *)

Lemma dispatch_unrecognized (ev : string) (data : option json) :
  existsb (String.eqb ev) recognized_events = false ->
  dispatch ev data = [ConsoleLog UNKNOWN_EVENT].
Proof.
  unfold recognized_events. cbn [existsb]. intros H.
  repeat (apply orb_false_elim in H; destruct H as [?H H]).
  unfold dispatch.
  repeat match goal with Hx : String.eqb ev _ = false |- _ => rewrite Hx; clear Hx end.
  reflexivity.
Qed.

Lemma handleMessage_unrecognized (m : json) (st : State) :
  is_recognized (event_of m) = false ->
  handleMessage (WellFormed m) st
  = (setLastMessage m st,
     [match m with JNull => ConsoleError PARSE_FAILED | _ => ConsoleLog UNKNOWN_EVENT end]).
Proof.
  intros H. unfold handleMessage.
  destruct m; try reflexivity.
  unfold event_of in H.
  destruct (prop (JObj fields) "event") as [[| | |s| |]|] eqn:E; try reflexivity.
  simpl in H. rewrite dispatch_unrecognized by exact H. reflexivity.
Qed.

(** C4: a frame received on the open socket of [openConnection] whose
    [event] is not one of the eleven recognized tags produces exactly one
    console entry and nothing else: no query invalidation, toast or
    notification, no socket, timer, counter or connection-flag change;
    the parsed message is recorded in [lastMessage] like any other. *)
Theorem C4_unrecognized_event_only_logged
  (opts : Options) (st : State) (i : nat) (s : Socket) (m : json) :
  sockets st !! i = Some s -> readyState s = OPEN -> origin s = ByEffect ->
  is_recognized (event_of m) = false ->
  exists st' entry,
    deliver opts st (SocketMessage i (WellFormed m)) = Some (st', [entry])
    /\ is_console entry = true
    /\ (m <> JNull -> entry = ConsoleLog UNKNOWN_EVENT)
    /\ st' = setLastMessage m st
    /\ sockets st' = sockets st /\ timers st' = timers st
    /\ wsRef st' = wsRef st /\ isConnected st' = isConnected st
    /\ reconnectCountRef st' = reconnectCountRef st.
Proof.
  intros Hs Hr Ho Hev.
  eexists; eexists. cbn [deliver]. rewrite Hs, Hr, Ho.
  rewrite handleMessage_unrecognized by exact Hev.
  split; [reflexivity|].
  split; [destruct m; reflexivity|].
  split; [intros Hm; destruct m; congruence|].
  repeat split; reflexivity.
Qed.

Lemma C4_unrecognized_event_only_logged_witness :
  exists st' entry,
    deliver defaultOptions open_state
      (SocketMessage 0 (WellFormed (JObj [("event", JStr "tunnel.failed")])))
    = Some (st', [entry]) /\ is_console entry = true.
Proof.
  destruct (C4_unrecognized_event_only_logged defaultOptions open_state 0
              (mkSocket OPEN ByEffect (JStr "abc"))
              (JObj [("event", JStr "tunnel.failed")])
              eq_refl eq_refl eq_refl eq_refl)
    as (st' & entry & Hd & Hc & _).
  exists st', entry. split; assumption.
Defined.

(** C10: a frame that [JSON.parse] rejects leaves the whole state as it
    was ([lastMessage] included, the socket still open); the handler
    returns, and the only call made is the [console.error] of the
    [catch] (a socket made by [connect] has no message handler and does
    nothing at all). *)
Theorem C10_malformed_frame_no_state_change
  (opts : Options) (st : State) (i : nat) (s : Socket) :
  sockets st !! i = Some s -> readyState s = OPEN ->
  deliver opts st (SocketMessage i Malformed)
  = Some (st, match origin s with
              | ByEffect => [ConsoleError PARSE_FAILED]
              | ByConnect => []
              end).
Proof.
  intros Hs Hr. cbn [deliver]. rewrite Hs, Hr. destruct (origin s); reflexivity.
Qed.

Lemma C10_malformed_frame_no_state_change_witness :
  deliver defaultOptions open_state (SocketMessage 0 Malformed)
  = Some (open_state, [ConsoleError PARSE_FAILED]).
Proof.
  apply (C10_malformed_frame_no_state_change defaultOptions open_state 0
           (mkSocket OPEN ByEffect (JStr "abc"))); reflexivity.
Defined.

(** ** Socket open and close events *)

Lemma set_readyState_lookup (i : nat) (rs : ReadyState) (st : State) (s : Socket) :
  sockets st !! i = Some s ->
  set_readyState i rs st
  = set_sockets (<[i := mkSocket rs (origin s) (urlToken s)]> (sockets st)) st.
Proof. intros H. unfold set_readyState. rewrite H. reflexivity. Qed.

Lemma deliver_SocketOpen (opts : Options) (st : State) (i : nat) (s : Socket) :
  sockets st !! i = Some s -> readyState s = CONNECTING ->
  deliver opts st (SocketOpen i) = Some (onopen (origin s) (set_readyState i OPEN st)).
Proof. intros Hs Hr. cbn [deliver]. rewrite Hs, Hr. reflexivity. Qed.

Lemma deliver_SocketClose (opts : Options) (st : State) (i : nat) (s : Socket) (code : Z) :
  sockets st !! i = Some s -> readyState s <> CLOSED ->
  deliver opts st (SocketClose i code)
  = Some (onclose opts (origin s) code (set_readyState i CLOSED st)).
Proof.
  intros Hs Hr. cbn [deliver]. rewrite Hs. destruct (readyState s); congruence.
Qed.

(** The three outcomes of [ws.onclose] on a socket of [openConnection]. *)
Lemma onclose_retry (opts : Options) (code : Z) (st : State) :
  disposed st = false -> code <> 1000 ->
  reconnectCountRef st < reconnectAttempts opts ->
  onclose opts ByEffect code st
  = (mkState None (reconnectCountRef st + 1) (Some (length (timers st))) false
       (lastMessage st) (disposed st) (sockets st)
       (timers st ++ [mkTimer (reconnectInterval opts) Pending Retry]) (authData st),
     [ConsoleLog "WebSocket closed:"; ConsoleLog "Attempting reconnection";
      SetTimeout (length (timers st)) (reconnectInterval opts)]).
Proof.
  intros Hd Hc Hlt. destruct st; cbn in *; subst. unfold onclose; cbn.
  destruct (Z.eqb_spec code 1000) as [|_]; [contradiction|]. cbn.
  destruct (Z.ltb_spec reconnectCountRef0 (reconnectAttempts opts)) as [_|]; [|lia].
  reflexivity.
Qed.

Lemma onclose_no_retry (opts : Options) (code : Z) (st : State) :
  code = 1000 \/ reconnectAttempts opts <= reconnectCountRef st \/ disposed st = true ->
  onclose opts ByEffect code st
  = (set_wsRef None (setIsConnected false st), [ConsoleLog "WebSocket closed:"]).
Proof.
  intros H. unfold onclose. cbn.
  destruct (disposed st); cbn; [reflexivity|].
  destruct (Z.eqb_spec code 1000) as [|Hne]; cbn; [reflexivity|].
  destruct (Z.ltb_spec (reconnectCountRef st) (reconnectAttempts opts)) as [Hlt|]; [|reflexivity].
  destruct H as [H|[H|H]]; [contradiction|lia|discriminate].
Qed.

Lemma deliver_close_retry
  (opts : Options) (st : State) (i : nat) (s : Socket) (code : Z) :
  sockets st !! i = Some s -> readyState s <> CLOSED -> origin s = ByEffect ->
  disposed st = false -> code <> 1000 ->
  reconnectCountRef st < reconnectAttempts opts ->
  exists st' eff,
    deliver opts st (SocketClose i code) = Some (st', eff)
    /\ timers st' = timers st ++ [mkTimer (reconnectInterval opts) Pending Retry]
    /\ reconnectTimeoutRef st' = Some (length (timers st))
    /\ reconnectCountRef st' = reconnectCountRef st + 1
    /\ In (SetTimeout (length (timers st)) (reconnectInterval opts)) eff
    /\ wsRef st' = None /\ isConnected st' = false
    /\ sockets st' = <[i := mkSocket CLOSED ByEffect (urlToken s)]> (sockets st).
Proof.
  intros Hs Hr Ho Hd Hc Hlt.
  rewrite (deliver_SocketClose opts st i s code Hs Hr).
  rewrite Ho, (set_readyState_lookup _ _ _ _ Hs), Ho.
  rewrite onclose_retry by (cbn; auto).
  eexists; eexists; split; [reflexivity|]. cbn.
  repeat split; try reflexivity. right; right; left; reflexivity.
Qed.

(** C7: when a connecting socket opens, [onopen] sets the retry counter
    to 0 and the connected flag; the whole budget [reconnectAttempts] is
    available again, and an unexpected close of that socket (made by
    [openConnection], hook still mounted) then schedules retry number 1. *)
Theorem C7_open_resets_retry_count
  (opts : Options) (st : State) (i : nat) (s : Socket) :
  sockets st !! i = Some s -> readyState s = CONNECTING ->
  exists st' eff,
    deliver opts st (SocketOpen i) = Some (st', eff)
    /\ reconnectCountRef st' = 0
    /\ isConnected st' = true
    /\ sockets st' !! i = Some (mkSocket OPEN (origin s) (urlToken s))
    /\ (forall code, origin s = ByEffect -> disposed st = false ->
        code <> 1000 -> 0 < reconnectAttempts opts ->
        exists st'' eff',
          deliver opts st' (SocketClose i code) = Some (st'', eff')
          /\ reconnectCountRef st'' = 1
          /\ timers st'' = timers st ++ [mkTimer (reconnectInterval opts) Pending Retry]).
Proof.
  intros Hs Hr.
  assert (Hi : (i < length (sockets st))%nat) by (eapply lookup_lt_Some; eauto).
  rewrite (deliver_SocketOpen opts st i s Hs Hr), (set_readyState_lookup _ _ _ _ Hs).
  unfold onopen.
  destruct (origin s) eqn:Ho; (eexists; eexists; split; [reflexivity|]);
    (split; [reflexivity|]; split; [reflexivity|];
     split; [cbn; apply list_lookup_insert_eq; exact Hi|]).
  - intros code _ Hd Hc Hmax.
    match goal with
    | |- context [deliver opts ?X (SocketClose i code)] =>
        destruct (deliver_close_retry opts X i
                    (mkSocket OPEN ByEffect (urlToken s)) code)
          as (st'' & eff' & Hdel & Htm & _ & Hcnt & _)
    end;
      [ cbn; apply list_lookup_insert_eq; exact Hi | cbn; discriminate
      | reflexivity | exact Hd | exact Hc | cbn; exact Hmax | ].
    exists st'', eff'. split; [exact Hdel|]. split; [exact Hcnt|exact Htm].
  - intros code Hne. discriminate.
Qed.

Lemma C7_open_resets_retry_count_witness :
  exists st' eff,
    deliver defaultOptions mounted (SocketOpen 0) = Some (st', eff)
    /\ reconnectCountRef st' = 0.
Proof.
  destruct (C7_open_resets_retry_count defaultOptions mounted 0
              (mkSocket CONNECTING ByEffect (JStr "abc")) eq_refl eq_refl)
    as (st' & eff & Hd & Hc & _).
  exists st', eff. split; assumption.
Defined.

(** The close of an open socket made by [openConnection], while the
    hook is mounted: the close event clears the connected flag and the
    reference; with code 1000 nothing is scheduled; with any other code
    and the counter below [reconnectAttempts] one retry timer of
    [reconnectInterval] ms is set, its handle stored and the counter
    incremented; with the counter at the maximum nothing is scheduled. *)
Lemma effect_socket_close
  (opts : Options) (st : State) (i : nat) (s : Socket) (code : Z) :
  sockets st !! i = Some s -> readyState s = OPEN -> origin s = ByEffect ->
  disposed st = false ->
  exists st' eff,
    deliver opts st (SocketClose i code) = Some (st', eff)
    /\ isConnected st' = false /\ wsRef st' = None
    /\ sockets st' = <[i := mkSocket CLOSED ByEffect (urlToken s)]> (sockets st)
    /\ (code = 1000 ->
        timers st' = timers st /\ reconnectCountRef st' = reconnectCountRef st
        /\ reconnectTimeoutRef st' = reconnectTimeoutRef st
        /\ eff = [ConsoleLog "WebSocket closed:"])
    /\ (code <> 1000 -> reconnectCountRef st < reconnectAttempts opts ->
        timers st' = timers st ++ [mkTimer (reconnectInterval opts) Pending Retry]
        /\ reconnectTimeoutRef st' = Some (length (timers st))
        /\ reconnectCountRef st' = reconnectCountRef st + 1
        /\ In (SetTimeout (length (timers st)) (reconnectInterval opts)) eff)
    /\ (code <> 1000 -> reconnectAttempts opts <= reconnectCountRef st ->
        timers st' = timers st /\ reconnectCountRef st' = reconnectCountRef st).
Proof.
  intros Hs Hr Ho Hd.
  rewrite (deliver_SocketClose opts st i s code Hs) by (rewrite Hr; discriminate).
  rewrite Ho, (set_readyState_lookup _ _ _ _ Hs), Ho.
  destruct (Z.eq_dec code 1000) as [Hc|Hc].
  - rewrite onclose_no_retry by (left; exact Hc).
    eexists; eexists; split; [reflexivity|]. cbn.
    repeat split; try reflexivity; intros; try contradiction.
  - destruct (Z.lt_ge_cases (reconnectCountRef st) (reconnectAttempts opts)) as [Hlt|Hge].
    + rewrite onclose_retry by (cbn; auto).
      eexists; eexists; split; [reflexivity|]. cbn.
      repeat split; try reflexivity; intros; try contradiction; try lia.
      right; right; left; reflexivity.
    + rewrite onclose_no_retry by (right; left; cbn; exact Hge).
      eexists; eexists; split; [reflexivity|]. cbn.
      repeat split; try reflexivity; intros; try contradiction; try lia.
Qed.

Lemma effect_socket_close_example :
  exists st' eff,
    deliver defaultOptions open_state (SocketClose 0 1006) = Some (st', eff)
    /\ isConnected st' = false /\ wsRef st' = None.
Proof.
  destruct (effect_socket_close defaultOptions open_state 0
              (mkSocket OPEN ByEffect (JStr "abc")) 1006
              eq_refl eq_refl eq_refl eq_refl)
    as (st' & eff & Hd & Hc & Hw & _).
  exists st', eff. repeat split; assumption.
Defined.

(** C3, at the failing input: [connect()] was called on the mounted
    hook and its socket (1) is open, the counter (0) is below the
    maximum (5); the socket closes with code 1006 and the [onclose]
    installed by [connect()] only clears the flag and the reference: no
    timer is set, where the [onclose] of [openConnection] sets one
    ([effect_socket_close]). *)
Theorem C3_manual_socket_close_is_not_retried :
  is_open manual_open_state = true
  /\ reconnectCountRef manual_open_state < reconnectAttempts defaultOptions
  /\ exists st',
       deliver defaultOptions manual_open_state (SocketClose 1 1006) = Some (st', [])
       /\ timers st' = [] /\ wsRef st' = None /\ isConnected st' = false.
Proof.
  split; [reflexivity|]. split; [reflexivity|].
  eexists. split; [vm_compute; reflexivity|]. repeat split.
Qed.

(** ** disconnect and the storage listener *)

Lemma length_clearTimeout (t : nat) (tms : list Timer) :
  length (clearTimeout t tms) = length tms.
Proof.
  unfold clearTimeout. destruct (tms !! t) as [tm|]; [|reflexivity].
  destruct (is_pending tm); [apply length_insert|reflexivity].
Qed.

Lemma clearTimeout_not_pending (t : nat) (tms : list Timer) (tm : Timer) :
  clearTimeout t tms !! t = Some tm -> status tm <> Pending.
Proof.
  unfold clearTimeout. destruct (tms !! t) as [tm0|] eqn:E.
  - destruct (is_pending tm0) eqn:Ep.
    + rewrite list_lookup_insert_eq by (eapply lookup_lt_Some; eauto).
      intros H; inversion H; subst; cbn. discriminate.
    + rewrite E. intros H; inversion H; subst.
      unfold is_pending in Ep. destruct (status tm); congruence.
  - rewrite E. discriminate.
Qed.

Lemma length_cleared_timers (st : State) :
  length (cleared_timers st) = length (timers st).
Proof.
  unfold cleared_timers. destruct (reconnectTimeoutRef st);
    [apply length_clearTimeout|reflexivity].
Qed.

Lemma length_closing_sockets (st : State) :
  length (closing_sockets st) = length (sockets st).
Proof.
  unfold closing_sockets. destruct (wsRef st) as [i|]; [|reflexivity].
  destruct (sockets st !! i); [apply length_insert|reflexivity].
Qed.

Lemma closing_sockets_current (st : State) (i : nat) (s : Socket) :
  wsRef st = Some i -> sockets st !! i = Some s ->
  exists s', closing_sockets st !! i = Some s'
             /\ readyState s' <> OPEN /\ readyState s' <> CONNECTING
             /\ origin s' = origin s.
Proof.
  intros Hw Hs. unfold closing_sockets. rewrite Hw, Hs.
  rewrite list_lookup_insert_eq by (eapply lookup_lt_Some; eauto).
  eexists; split; [reflexivity|]. cbn.
  destruct (readyState s); repeat split; discriminate.
Qed.

Lemma clear_reconnect_timeout_state (st : State) :
  fst (clear_reconnect_timeout st)
  = set_reconnectTimeout None (set_timers (cleared_timers st) st).
Proof.
  unfold clear_reconnect_timeout, cleared_timers.
  destruct st as [w c r ic lm d ss ts a]; cbn. destruct r; reflexivity.
Qed.

Lemma close_current_state (reason : string) (st : State) :
  fst (close_current reason st)
  = set_wsRef None (set_sockets (closing_sockets st) st).
Proof.
  unfold close_current, closing_sockets, ws_close.
  destruct st as [w c r ic lm d ss ts a]; cbn. destruct w as [i|]; [|reflexivity].
  destruct (ss !! i); reflexivity.
Qed.

Lemma close_current_effects (reason : string) (st : State) (i : nat) :
  wsRef st = Some i -> snd (close_current reason st) = [WsClose i 1000 reason].
Proof.
  intros Hw. unfold close_current, ws_close. rewrite Hw.
  destruct (sockets st !! i); reflexivity.
Qed.

Lemma fst_andThen (f g : State -> State * list Effect) (st : State) :
  fst ((f >>> g) st) = fst (g (fst (f st))).
Proof.
  unfold andThen. destruct (f st) as [st1 e1]. cbn. destruct (g st1); reflexivity.
Qed.

Lemma snd_andThen (f g : State -> State * list Effect) (st : State) :
  snd ((f >>> g) st) = snd (f st) ++ snd (g (fst (f st))).
Proof.
  unfold andThen. destruct (f st) as [st1 e1]. cbn. destruct (g st1); reflexivity.
Qed.

(** What [disconnect()] leaves behind: no current socket, the flag
    cleared, the timer whose handle was stored cancelled. *)
Lemma disconnect_state (st : State) :
  fst (disconnect st)
  = mkState None (reconnectCountRef st) None false (lastMessage st) (disposed st)
            (closing_sockets st) (cleared_timers st) (authData st).
Proof.
  unfold disconnect. rewrite !fst_andThen. unfold update. cbn [fst].
  rewrite close_current_state, clear_reconnect_timeout_state.
  unfold closing_sockets, cleared_timers.
  destruct st as [w c r ic lm d ss ts a]; cbn. reflexivity.
Qed.

Lemma reconnect_if_token_getToken (newValue : option Text) (st : State) :
  reconnect_if_token newValue st
  = match getToken newValue with
    | Some _ => (update (set_reconnectCount 0) >>> setTimeout 100 TokenChange) st
    | None => (st, [])
    end.
Proof.
  unfold reconnect_if_token, getToken.
  destruct newValue as [[|v]|]; try reflexivity.
  destruct v; try reflexivity.
  destruct (opt_chain (prop (JObj fields) "state") "accessToken") as [tok|];
    [destruct (truthy (Some tok)); reflexivity | reflexivity].
Qed.

Lemma handleStorageChange_state (newValue : option Text) (st : State) :
  fst (handleStorageChange (Some AUTH_KEY) newValue st)
  = match getToken newValue with
    | Some _ =>
        mkState None 0 None false (lastMessage st) (disposed st)
          (closing_sockets st)
          (cleared_timers st ++ [mkTimer 100 Pending TokenChange]) (authData st)
    | None =>
        mkState None (reconnectCountRef st) None false (lastMessage st) (disposed st)
          (closing_sockets st) (cleared_timers st) (authData st)
    end.
Proof.
  unfold handleStorageChange.
  change (String.eqb AUTH_KEY AUTH_KEY) with true. cbv iota.
  rewrite !fst_andThen. unfold update at 1. cbn [fst].
  rewrite close_current_state, clear_reconnect_timeout_state.
  rewrite reconnect_if_token_getToken.
  unfold closing_sockets, cleared_timers.
  destruct st as [w c r ic lm d ss ts a]; cbn.
  destruct (getToken newValue); reflexivity.
Qed.

Lemma handleStorageChange_closes (newValue : option Text) (st : State) (i : nat) :
  wsRef st = Some i ->
  In (WsClose i 1000 "Token changed")
     (snd (handleStorageChange (Some AUTH_KEY) newValue st)).
Proof.
  intros Hw. unfold handleStorageChange.
  change (String.eqb AUTH_KEY AUTH_KEY) with true. cbv iota.
  rewrite snd_andThen, snd_andThen.
  apply in_or_app; right. apply in_or_app; left.
  rewrite (close_current_effects _ _ i).
  - left; reflexivity.
  - rewrite clear_reconnect_timeout_state. exact Hw.
Qed.

(** C5 (as the code has it): a storage event for the auth key, while the
    listener is registered, cancels the timer whose handle is stored,
    closes the current socket with code 1000 and clears the reference and
    the connected flag. If the new value holds a token the counter is set
    to 0 and [openConnection] is scheduled 100 ms later; when that timer
    fires a socket is opened with the new token. If it holds none,
    nothing is scheduled, no socket is made and the counter keeps its
    value. *)
Theorem C5_token_change
  (opts : Options) (st : State) (newValue : option Text) :
  autoConnect opts = true -> disposed st = false ->
  exists st' eff,
    deliver opts st (StorageEvent (Some AUTH_KEY) newValue) = Some (st', eff)
    /\ wsRef st' = None /\ isConnected st' = false /\ reconnectTimeoutRef st' = None
    /\ (forall t tm, reconnectTimeoutRef st = Some t -> timers st !! t = Some tm ->
          exists tm', timers st' !! t = Some tm' /\ status tm' <> Pending)
    /\ (forall i s, wsRef st = Some i -> sockets st !! i = Some s ->
          In (WsClose i 1000 "Token changed") eff
          /\ exists s', sockets st' !! i = Some s'
                        /\ readyState s' <> OPEN /\ readyState s' <> CONNECTING)
    /\ length (sockets st') = length (sockets st)
    /\ match getToken newValue with
       | Some token =>
           reconnectCountRef st' = 0
           /\ timers st' = cleared_timers st ++ [mkTimer 100 Pending TokenChange]
           /\ exists st'',
                deliver opts st' (TimerFire (length (timers st)))
                = Some (st'', [NewWebSocket (length (sockets st)) token])
                /\ wsRef st'' = Some (length (sockets st))
                /\ sockets st'' !! length (sockets st)
                   = Some (mkSocket CONNECTING ByEffect token)
       | None =>
           reconnectCountRef st' = reconnectCountRef st
           /\ timers st' = cleared_timers st
       end.
Proof.
  intros Hauto Hdisp.
  cbn [deliver]. rewrite Hauto, Hdisp. cbn [negb andb].
  set (st1 := set_authData _ st).
  assert (Ha : authData st1 = newValue).
  { subst st1. cbn. change (String.eqb AUTH_KEY AUTH_KEY) with true. reflexivity. }
  assert (Hcl : closing_sockets st1 = closing_sockets st) by reflexivity.
  assert (Hct : cleared_timers st1 = cleared_timers st) by reflexivity.
  destruct (handleStorageChange (Some AUTH_KEY) newValue st1) as [st' eff] eqn:Hh.
  pose proof (handleStorageChange_state newValue st1) as Hst.
  rewrite Hh in Hst. cbn [fst] in Hst. rewrite Hcl, Hct, Ha in Hst.
  exists st', eff. split; [reflexivity|].
  assert (Hclosed : forall i s, wsRef st = Some i -> sockets st !! i = Some s ->
            In (WsClose i 1000 "Token changed") eff
            /\ exists s', closing_sockets st !! i = Some s'
                          /\ readyState s' <> OPEN /\ readyState s' <> CONNECTING).
  { intros i s Hw Hs. split.
    - pose proof (handleStorageChange_closes newValue st1 i Hw) as Hin.
      rewrite Hh in Hin. exact Hin.
    - destruct (closing_sockets_current st i s Hw Hs) as (s' & H1 & H2 & H3 & _).
      exists s'. auto. }
  assert (Hcancel : forall t tm, reconnectTimeoutRef st = Some t ->
            timers st !! t = Some tm ->
            exists tm', cleared_timers st !! t = Some tm' /\ status tm' <> Pending).
  { intros t tm Hr Hl. unfold cleared_timers. rewrite Hr.
    destruct (lookup_lt_is_Some_2 (clearTimeout t (timers st)) t) as [tm' Htm'].
    - rewrite length_clearTimeout. eapply lookup_lt_Some; eauto.
    - exists tm'. split; [exact Htm'|]. eapply clearTimeout_not_pending; eauto. }
  destruct (getToken newValue) as [token|] eqn:Htok; subst st'; cbn.
  - repeat split; try reflexivity.
    + intros t tm Hr Hl.
      rewrite lookup_app_l
        by (rewrite length_cleared_timers; eapply lookup_lt_Some; eauto).
      eapply Hcancel; eassumption.
    + eapply Hclosed; eauto.
    + eapply Hclosed; eauto.
    + apply length_closing_sockets.
    + rewrite <- (length_cleared_timers st).
      rewrite list_lookup_middle by reflexivity. cbn.
      unfold openConnection, mark_fired. cbn.
      rewrite list_lookup_middle by reflexivity. cbn.
      rewrite Hdisp. unfold is_open, current_readyState. cbn.
      rewrite Htok. unfold new_socket. cbn.
      rewrite length_closing_sockets.
      eexists. split; [reflexivity|]. cbn. split; [reflexivity|].
      rewrite <- (length_closing_sockets st).
      apply list_lookup_middle. reflexivity.
  - repeat split; try reflexivity.
    + intros t tm Hr Hl. eapply Hcancel; eassumption.
    + eapply Hclosed; eauto.
    + eapply Hclosed; eauto.
    + apply length_closing_sockets.
Qed.

Lemma C5_token_change_witness :
  exists st' eff,
    deliver defaultOptions one_failure (StorageEvent (Some AUTH_KEY) other_token)
    = Some (st', eff)
    /\ wsRef st' = None /\ isConnected st' = false /\ reconnectTimeoutRef st' = None.
Proof.
  destruct (C5_token_change defaultOptions one_failure other_token eq_refl eq_refl)
    as (st' & eff & Hd & Hw & Hc & Hr & _).
  exists st', eff. repeat split; assumption.
Defined.

(** C5, the claim as written fails: while waiting to reconnect
    (counter 1, retry pending), a storage event whose new value holds no
    token leaves the counter at 1; and with a new token the event itself
    opens no socket (that happens when the 100 ms timer fires). *)
Lemma C5_counterexample :
  (reconnectCountRef one_failure = 1
   /\ exists st' eff,
        deliver defaultOptions one_failure (StorageEvent (Some AUTH_KEY) logged_out)
        = Some (st', eff)
        /\ reconnectCountRef st' <> 0)
  /\ (exists st' eff,
        deliver defaultOptions open_state (StorageEvent (Some AUTH_KEY) other_token)
        = Some (st', eff)
        /\ wsRef st' = None
        /\ length (sockets st') = length (sockets open_state)
        /\ eff = [WsClose 0 1000 "Token changed"; SetTimeout 0 100]).
Proof.
  split.
  - split; [reflexivity|].
    eexists; eexists. split; [vm_compute; reflexivity|]. cbn. discriminate.
  - eexists; eexists. split; [vm_compute; reflexivity|]. repeat split.
Qed.

(** C6, at the failing input: the hook is connected, a storage event
    brings a new token (the 100 ms timer 0 is set, its handle stored
    nowhere), [disconnect()] runs and leaves the hook without socket and
    with no stored handle, yet timer 0 is still pending; it fires and
    [openConnection] opens socket 1. *)
Theorem C6_disconnect_misses_token_change_timer :
  exists st1 eff1 st2 eff2 st3,
    deliver defaultOptions open_state (StorageEvent (Some AUTH_KEY) other_token)
    = Some (st1, eff1)
    /\ deliver defaultOptions st1 Disconnect = Some (st2, eff2)
    /\ wsRef st2 = None /\ isConnected st2 = false /\ reconnectTimeoutRef st2 = None
    /\ timers st2 = [mkTimer 100 Pending TokenChange]
    /\ deliver defaultOptions st2 (TimerFire 0)
       = Some (st3, [NewWebSocket 1 (JStr "xyz")])
    /\ wsRef st3 = Some 1%nat
    /\ sockets st3 !! 1%nat = Some (mkSocket CONNECTING ByEffect (JStr "xyz")).
Proof.
  do 5 eexists.
  split; [vm_compute; reflexivity|].
  split; [vm_compute; reflexivity|].
  cbn. repeat split.
Qed.

(** The same with retry timers proper: of two pending retry timers only
    the one whose handle is stored is cancelled; the other fires after
    [disconnect()] and opens socket 4. *)
Lemma disconnect_misses_orphaned_retry :
  List.map scheduledBy (timers two_retries_pending) = [Retry; TokenChange; Retry; Retry]
  /\ List.map status (timers two_retries_pending) = [Fired; Fired; Pending; Pending]
  /\ reconnectTimeoutRef two_retries_pending = Some 3%nat
  /\ exists st2 eff2 st3,
       deliver defaultOptions two_retries_pending Disconnect = Some (st2, eff2)
       /\ List.map status (timers st2) = [Fired; Fired; Pending; Cleared]
       /\ deliver defaultOptions st2 (TimerFire 2)
          = Some (st3, [NewWebSocket 4 (JStr "xyz")])
       /\ wsRef st3 = Some 4%nat.
Proof.
  split; [reflexivity|]. split; [reflexivity|]. split; [reflexivity|].
  do 3 eexists.
  split; [vm_compute; reflexivity|].
  split; [reflexivity|].
  split; [vm_compute; reflexivity|]. reflexivity.
Qed.

(** What [disconnect()] does achieve, in any state: the socket in
    [wsRef] is told to close, the reference and the flag are cleared and
    the timer whose handle is stored is no longer pending. *)
Lemma disconnect_cancels_stored_timer (opts : Options) (st : State) :
  exists st' eff,
    deliver opts st Disconnect = Some (st', eff)
    /\ wsRef st' = None /\ isConnected st' = false /\ reconnectTimeoutRef st' = None
    /\ reconnectCountRef st' = reconnectCountRef st
    /\ (forall t tm, reconnectTimeoutRef st = Some t -> timers st !! t = Some tm ->
          exists tm', timers st' !! t = Some tm' /\ status tm' <> Pending)
    /\ (forall i s, wsRef st = Some i -> sockets st !! i = Some s ->
          exists s', sockets st' !! i = Some s'
                     /\ readyState s' <> OPEN /\ readyState s' <> CONNECTING).
Proof.
  cbn [deliver]. destruct (disconnect st) as [st' eff] eqn:Hd.
  pose proof (disconnect_state st) as Hst. rewrite Hd in Hst. cbn [fst] in Hst.
  exists st', eff. split; [reflexivity|]. subst st'. cbn.
  repeat split; try reflexivity.
  - intros t tm Hr Hl. unfold cleared_timers. rewrite Hr.
    destruct (lookup_lt_is_Some_2 (clearTimeout t (timers st)) t) as [tm' Htm'].
    + rewrite length_clearTimeout. eapply lookup_lt_Some; eauto.
    + exists tm'. split; [exact Htm'|]. eapply clearTimeout_not_pending; eauto.
  - intros i s Hw Hs.
    destruct (closing_sockets_current st i s Hw Hs) as (s' & H1 & H2 & H3 & _).
    exists s'. auto.
Qed.

(** ** Invariants of the reachable states *)

(** A property of states that survives every elementary update made by
    the callbacks survives every event. *)
Section Preservation.
Variable opts : Options.
Variable I : State -> Prop.

Hypothesis I_wsRef : forall v st, I st -> I (set_wsRef v st).
Hypothesis I_isConnected : forall v st, I st -> I (setIsConnected v st).
Hypothesis I_lastMessage : forall v st, I st -> I (setLastMessage v st).
Hypothesis I_disposed : forall st, I st -> I (set_disposed true st).
Hypothesis I_authData : forall v st, I st -> I (set_authData v st).
Hypothesis I_reconnectTimeout : forall v st, I st -> I (set_reconnectTimeout v st).
Hypothesis I_socket_state :
  forall i s rs st, I st -> sockets st !! i = Some s ->
    (rs = OPEN -> readyState s = CONNECTING) ->
    (rs = CLOSING -> readyState s = CONNECTING \/ readyState s = OPEN) ->
    rs <> CONNECTING ->
    I (set_sockets (<[i := mkSocket rs (origin s) (urlToken s)]> (sockets st)) st).
Hypothesis I_new_socket :
  forall o tok st, I st -> (o = ByEffect -> disposed st = false) ->
    I (set_sockets (sockets st ++ [mkSocket CONNECTING o tok]) st).
Hypothesis I_reset : forall st, I st -> I (set_reconnectCount 0 st).
Hypothesis I_clear :
  forall t st, I st -> I (set_timers (clearTimeout t (timers st)) st).
Hypothesis I_fired :
  forall t tm st, I st -> timers st !! t = Some tm -> status tm = Pending ->
    I (set_timers (<[t := mkTimer (delay tm) Fired (scheduledBy tm)]> (timers st)) st).
Hypothesis I_token_timer :
  forall st, I st -> I (set_timers (timers st ++ [mkTimer 100 Pending TokenChange]) st).
Hypothesis I_retry :
  forall st, I st -> reconnectCountRef st < reconnectAttempts opts ->
    I (set_timers (timers st ++ [retry_timer opts])
         (set_reconnectCount (reconnectCountRef st + 1) st)).

Local Abbreviation keeps := (keeps I).

Lemma keeps_andThen (f g : State -> State * list Effect) :
  keeps f -> keeps g -> keeps (f >>> g).
Proof. intros Hf Hg st HI. rewrite fst_andThen. apply Hg, Hf, HI. Qed.

Lemma keeps_clear_reconnect_timeout : keeps clear_reconnect_timeout.
Proof.
  intros st HI. unfold clear_reconnect_timeout.
  destruct (reconnectTimeoutRef st); cbn; auto.
Qed.

Lemma keeps_close_current (reason : string) : keeps (close_current reason).
Proof.
  intros st HI. unfold close_current, ws_close.
  destruct (wsRef st) as [i|]; [|exact HI].
  destruct (sockets st !! i) as [s|] eqn:Hs; cbn; auto.
  apply I_wsRef. unfold closing.
  destruct (readyState s) eqn:Hr.
  - apply I_socket_state; auto; discriminate.
  - apply I_socket_state; auto; discriminate.
  - rewrite <- Hr, socket_eta, list_insert_id by exact Hs.
    rewrite <- (state_eta st) in HI. exact HI.
  - rewrite <- Hr, socket_eta, list_insert_id by exact Hs.
    rewrite <- (state_eta st) in HI. exact HI.
Qed.

Lemma keeps_openConnection : keeps openConnection.
Proof.
  intros st HI. unfold openConnection, new_socket.
  destruct (disposed st) eqn:Hd; [exact HI|].
  destruct (is_open st); [exact HI|].
  destruct (getToken (authData st)); cbn; auto.
Qed.

Lemma keeps_handleMessage (payload : Text) : keeps (handleMessage payload).
Proof.
  intros st HI. unfold handleMessage.
  destruct payload as [|m]; [exact HI|].
  destruct m; cbn; auto.
  destruct (assoc "event" fields) as [[]|]; cbn; auto.
Qed.

Lemma keeps_onopen (o : Origin) : keeps (onopen o).
Proof. intros st HI. unfold onopen. destruct o; cbn; auto. Qed.

Lemma keeps_onclose (o : Origin) (code : Z) : keeps (onclose opts o code).
Proof.
  intros st HI. unfold onclose. destruct o; cbn; auto.
  destruct (negb (disposed st)); cbn; auto.
  destruct (negb (code =? 1000)); cbn; auto.
  destruct (Z.ltb_spec (reconnectCountRef st) (reconnectAttempts opts)); cbn; auto.
  apply I_reconnectTimeout.
  apply (I_retry (set_wsRef None (setIsConnected false st))); cbn; auto.
Qed.

Lemma keeps_reconnect_if_token (newValue : option Text) :
  keeps (reconnect_if_token newValue).
Proof.
  intros st HI. rewrite reconnect_if_token_getToken.
  destruct (getToken newValue); [|exact HI].
  unfold andThen, update, setTimeout. cbn.
  apply (I_token_timer (set_reconnectCount 0 st)). auto.
Qed.

Lemma keeps_update (f : State -> State) :
  (forall st, I st -> I (f st)) -> keeps (update f).
Proof. intros Hf st HI. cbn. auto. Qed.

Lemma keeps_handleStorageChange (key : option string) (newValue : option Text) :
  keeps (handleStorageChange key newValue).
Proof.
  unfold handleStorageChange.
  destruct key as [k|]; [|apply keeps_update; auto].
  destruct (String.eqb k AUTH_KEY); [|apply keeps_update; auto].
  repeat apply keeps_andThen;
    auto using keeps_clear_reconnect_timeout, keeps_close_current,
               keeps_update, keeps_reconnect_if_token.
Qed.

Lemma keeps_disconnect : keeps disconnect.
Proof.
  unfold disconnect.
  repeat apply keeps_andThen;
    auto using keeps_clear_reconnect_timeout, keeps_close_current, keeps_update.
Qed.

Lemma keeps_cleanup : keeps cleanup.
Proof.
  unfold cleanup.
  repeat apply keeps_andThen;
    auto using keeps_clear_reconnect_timeout, keeps_close_current, keeps_update.
Qed.

Lemma keeps_connect : keeps connect.
Proof.
  unfold connect.
  repeat apply keeps_andThen; auto using keeps_close_current, keeps_update.
  intros st HI. destruct (getToken (authData st)); [|exact HI].
  unfold new_socket. cbn. apply I_wsRef, I_new_socket; [exact HI|discriminate].
Qed.

Lemma keeps_send (data : json) : keeps (send data).
Proof.
  intros st HI. unfold send. destruct (wsRef st); [|exact HI].
  destruct (is_open st); exact HI.
Qed.

Lemma deliver_preserves (st st' : State) (e : Event) (eff : list Effect) :
  I st -> deliver opts st e = Some (st', eff) -> I st'.
Proof.
  intros HI H.
  assert (Hfst : forall p : State * list Effect, Some p = Some (st', eff) -> st' = fst p)
    by (intros p Hp; injection Hp as ->; reflexivity).
  destruct e; cbn [deliver] in H.
  - destruct (sockets st !! i) as [s|] eqn:Hs; [|discriminate].
    destruct (readyState s) eqn:Hr; try discriminate.
    rewrite (Hfst _ H). apply keeps_onopen.
    rewrite (set_readyState_lookup _ _ _ _ Hs).
    apply I_socket_state; auto; discriminate.
  - destruct (sockets st !! i) as [s|] eqn:Hs; [|discriminate].
    destruct (readyState s); try discriminate.
    destruct (origin s); rewrite (Hfst _ H); [apply keeps_handleMessage|]; exact HI.
  - destruct (sockets st !! i) as [s|] eqn:Hs; [|discriminate].
    destruct (readyState s); try discriminate; rewrite (Hfst _ H); exact HI.
  - destruct (sockets st !! i) as [s|] eqn:Hs; [|discriminate].
    destruct (readyState s) eqn:Hr; try discriminate;
      rewrite (Hfst _ H); apply keeps_onclose;
      rewrite (set_readyState_lookup _ _ _ _ Hs);
      apply I_socket_state; auto; discriminate.
  - destruct (timers st !! t) as [tm|] eqn:Ht; [|discriminate].
    destruct (is_pending tm) eqn:Hp; [|discriminate].
    rewrite (Hfst _ H). apply keeps_openConnection.
    unfold mark_fired. rewrite Ht. apply I_fired; auto.
    unfold is_pending in Hp. destruct (status tm); congruence.
  - destruct (autoConnect opts && negb (disposed st)); rewrite (Hfst _ H).
    + apply keeps_handleStorageChange. auto.
    + cbn. auto.
  - rewrite (Hfst _ H). cbn. auto.
  - rewrite (Hfst _ H). apply keeps_connect, HI.
  - rewrite (Hfst _ H). apply keeps_disconnect, HI.
  - rewrite (Hfst _ H). apply keeps_send, HI.
  - destruct (autoConnect opts && negb (disposed st)); [|discriminate].
    rewrite (Hfst _ H). apply keeps_cleanup, HI.
  - destruct (sockets st !! i) as [s|] eqn:Hs; [|discriminate].
    destruct (readyState s) eqn:Hr; try discriminate.
    rewrite (Hfst _ H), (set_readyState_lookup _ _ _ _ Hs).
    apply I_socket_state; auto; discriminate.
Qed.

Lemma mount_establishes :
  (forall auth, I (initial auth)) -> forall auth, I (fst (mount opts auth)).
Proof.
  intros Hinit auth. unfold mount.
  destruct (autoConnect opts); [apply keeps_openConnection|]; apply Hinit.
Qed.

Lemma reachable_preserves :
  (forall auth, I (initial auth)) -> forall st, reachable opts st -> I st.
Proof.
  intros Hinit. apply reachable_invariant.
  - apply mount_establishes, Hinit.
  - intros st e st' eff HI Hd. eapply deliver_preserves; eauto.
Qed.
End Preservation.

Lemma clearTimeout_shape (opts : Options) (t : nat) (tms : list Timer) :
  Forall (timer_shape opts) tms -> Forall (timer_shape opts) (clearTimeout t tms).
Proof.
  intros H. unfold clearTimeout. destruct (tms !! t) as [tm|] eqn:E; [|exact H].
  destruct (is_pending tm); [|exact H].
  apply Forall_insert; [exact H|].
  exact (Forall_lookup_1 _ _ _ _ H E).
Qed.

(** Every timer set by [ws.onclose] carries the configured interval. *)
Lemma reachable_timer_shape (opts : Options) (st : State) :
  reachable opts st -> Forall (timer_shape opts) (timers st).
Proof.
  apply (reachable_preserves opts (fun st => Forall (timer_shape opts) (timers st)));
    intros; cbn; auto using clearTimeout_shape.
  - apply Forall_insert; [assumption|].
    match goal with
    | Hl : timers _ !! _ = Some _, HF : Forall _ _ |- _ =>
        exact (Forall_lookup_1 _ _ _ _ HF Hl)
    end.
  - apply Forall_app_2; [assumption|].
    apply Forall_cons_2; [intros Hx; discriminate Hx|apply Forall_nil_2].
  - apply Forall_app_2; [assumption|].
    apply Forall_cons_2; [intros _; reflexivity|apply Forall_nil_2].
Qed.

Lemma retry_delays_shape (opts : Options) (tms : list Timer) :
  Forall (timer_shape opts) tms ->
  Forall (fun d => d = reconnectInterval opts)
    (List.map delay
       (List.filter (fun tm => match scheduledBy tm with Retry => true | _ => false end) tms)).
Proof.
  induction 1 as [|tm tms Htm _ IH]; cbn; [constructor|].
  destruct (scheduledBy tm) eqn:E; cbn; [|exact IH].
  constructor; [apply Htm, E|exact IH].
Qed.


(** C1 (as the code has it): every retry timer ever set in a reachable
    state has the delay [reconnectInterval], whatever the retry count:
    there is no base, exponent, cap or jitter. An unexpected close that
    is entitled to a retry sets exactly that delay. *)
Theorem C1_retry_delay_is_the_interval (opts : Options) (st : State) :
  reachable opts st ->
  Forall (fun d => d = reconnectInterval opts) (retry_delays st)
  /\ (forall i s code,
        sockets st !! i = Some s -> readyState s <> CLOSED -> origin s = ByEffect ->
        disposed st = false -> code <> 1000 ->
        reconnectCountRef st < reconnectAttempts opts ->
        exists st' eff,
          deliver opts st (SocketClose i code) = Some (st', eff)
          /\ In (SetTimeout (length (timers st)) (reconnectInterval opts)) eff
          /\ retry_delays st' = retry_delays st ++ [reconnectInterval opts]).
Proof.
  intros Hr. split.
  - apply retry_delays_shape, reachable_timer_shape, Hr.
  - intros i s code Hs Hrs Ho Hd Hc Hlt.
    destruct (deliver_close_retry opts st i s code Hs Hrs Ho Hd Hc Hlt)
      as (st' & eff & Hdel & Htm & _ & _ & Hin & _).
    exists st', eff. split; [exact Hdel|]. split; [exact Hin|].
    unfold retry_delays. rewrite Htm, List.filter_app, List.map_app. reflexivity.
Qed.

Lemma six_failures_run :
  exists eff,
    run defaultOptions mounted (failures_from 0 5 ++ [SocketClose 5 1006])
    = Some (six_failures, eff).
Proof. eexists. vm_compute. reflexivity. Qed.

Lemma six_failures_reachable : reachable defaultOptions six_failures.
Proof.
  exists sample_token, (failures_from 0 5 ++ [SocketClose 5 1006]).
  eexists. vm_compute. reflexivity.
Defined.

Lemma C1_retry_delay_is_the_interval_witness :
  Forall (fun d => d = 3000) (retry_delays six_failures).
Proof.
  exact (proj1 (C1_retry_delay_is_the_interval defaultOptions six_failures
                  six_failures_reachable)).
Defined.

(** C1, the claim as written fails: with the default options, six
    consecutive failures set five timers, each of 3000 ms. The delays do
    not increase, and the third delay is not [min(1000 * 2^2, 30000)]
    plus any non-negative jitter. *)
Lemma C1_counterexample :
  retry_delays six_failures = [3000; 3000; 3000; 3000; 3000]
  /\ ~ (forall k d1 d2,
          retry_delays six_failures !! k = Some d1 ->
          retry_delays six_failures !! S k = Some d2 -> d1 < d2)
  /\ ~ (exists jitter, 0 <= jitter
          /\ retry_delays six_failures !! 2%nat = Some (spec_delay 1000 30000 2 jitter)).
Proof.
  split; [reflexivity|]. split.
  - intros H. specialize (H 0%nat 3000 3000 eq_refl eq_refl). lia.
  - intros (j & Hj & H).
    assert (E : retry_delays six_failures !! 2%nat = Some 3000) by reflexivity.
    rewrite E in H. injection H as H. unfold spec_delay in H.
    change (Z.min (1000 * 2 ^ 2) 30000) with 4000 in H. lia.
Qed.

(** ** Exhaustion of the retry budget *)



Lemma cleanup_state (st : State) :
  fst (cleanup st)
  = mkState None (reconnectCountRef st) None false (lastMessage st) true
            (closing_sockets st) (cleared_timers st) (authData st).
Proof.
  unfold cleanup. rewrite !fst_andThen. unfold update. cbn [fst].
  rewrite close_current_state, clear_reconnect_timeout_state.
  unfold closing_sockets, cleared_timers.
  destruct st as [w c r ic lm d ss ts a]; cbn. reflexivity.
Qed.



Lemma openConnection_count_timers (st : State) :
  reconnectCountRef (fst (openConnection st)) = reconnectCountRef st
  /\ timers (fst (openConnection st)) = timers st.
Proof.
  unfold openConnection, new_socket.
  destruct (disposed st); [auto|]. destruct (is_open st); [auto|].
  destruct (getToken (authData st)); auto.
Qed.







(** ** StopTunnel *)

Lemma StopTunnel_finished (other : option Tunnels.Tunnel -> Tunnels.StopResult)
  (sid : string) (tid : nat) (reg : gmap nat Tunnels.Tunnel) (t : Tunnels.Tunnel) :
  reg !! tid = Some t ->
  Tunnels.state t = Tunnels.Closed \/ Tunnels.state t = Tunnels.Failed ->
  Tunnels.StopTunnel other sid tid reg = (Tunnels.Ok, reg, []).
Proof.
  intros Hl Hs. unfold Tunnels.StopTunnel. rewrite Hl.
  destruct Hs as [-> | ->]; reflexivity.
Qed.

Lemma stop_repeatedly_finished (other : option Tunnels.Tunnel -> Tunnels.StopResult)
  (sid : string) (tid : nat) (n : nat) (reg : gmap nat Tunnels.Tunnel) (t : Tunnels.Tunnel) :
  reg !! tid = Some t ->
  Tunnels.state t = Tunnels.Closed \/ Tunnels.state t = Tunnels.Failed ->
  Tunnels.stop_repeatedly other sid tid n reg = (repeat (Tunnels.Ok, []) n, reg).
Proof.
  intros Hl Hs. induction n as [|n IH]; cbn; [reflexivity|].
  rewrite (StopTunnel_finished other sid tid reg t Hl Hs), IH. reflexivity.
Qed.

(** C8: stopping a tunnel that is Closed or Failed returns Ok, leaves
    the registry as it is and tears nothing down, for any number of
    calls in a row; and after one stop of an Active tunnel every further
    stop of the same id does the same. *)
Theorem C8_stop_tunnel_is_idempotent
  (other : option Tunnels.Tunnel -> Tunnels.StopResult)
  (sid : string) (tid : nat) (reg : gmap nat Tunnels.Tunnel) (t : Tunnels.Tunnel) :
  reg !! tid = Some t ->
  (Tunnels.state t = Tunnels.Closed \/ Tunnels.state t = Tunnels.Failed ->
   forall n, Tunnels.stop_repeatedly other sid tid n reg
             = (repeat (Tunnels.Ok, []) n, reg))
  /\ (Tunnels.state t = Tunnels.Active ->
      exists reg1 td,
        Tunnels.StopTunnel other sid tid reg = (Tunnels.Ok, reg1, td)
        /\ td <> []
        /\ forall n, Tunnels.stop_repeatedly other sid tid n reg1
                     = (repeat (Tunnels.Ok, []) n, reg1)).
Proof.
  intros Hl. split.
  - intros Hs n. eapply stop_repeatedly_finished; eauto.
  - intros Ha. unfold Tunnels.StopTunnel at 1. rewrite Hl, Ha.
    eexists; eexists. split; [reflexivity|]. split; [discriminate|].
    intros n. eapply stop_repeatedly_finished.
    + apply lookup_insert_eq.
    + left; reflexivity.
Qed.

Lemma C8_stop_tunnel_is_idempotent_witness :
  exists reg1 td,
    Tunnels.StopTunnel Tunnels.always_failed "abc" 7 Tunnels.sample_registry
    = (Tunnels.Ok, reg1, td)
    /\ Tunnels.stop_repeatedly Tunnels.always_failed "abc" 7 3 reg1
       = ([(Tunnels.Ok, []); (Tunnels.Ok, []); (Tunnels.Ok, [])], reg1).
Proof.
  destruct (C8_stop_tunnel_is_idempotent Tunnels.always_failed "abc" 7
              Tunnels.sample_registry
              (Tunnels.mkTunnel Tunnels.Forward "abc" 9222 9222 Tunnels.Active 0 0 0)
              (lookup_singleton_eq _ _)) as [_ Hact].
  destruct (Hact eq_refl) as (reg1 & td & Hstop & _ & Hrep).
  exists reg1, td. split; [exact Hstop|]. exact (Hrep 3%nat).
Defined.

(** The caller: after a successful stop the component holds no tunnel id,
    so a further [stopMutation] does not reach the server. *)
Lemma stopMutation_clears_tunnel (stopCDP : string -> nat -> Tunnels.ApiResult)
  (session : string) (c : Tunnels.CDPConnect) (tid : nat) :
  Tunnels.tunnelId c = Some tid -> stopCDP session tid = Tunnels.ApiOk ->
  Tunnels.stopMutation stopCDP session c
  = (Tunnels.mkCDPConnect false None None, Tunnels.ToastStopped).
Proof.
  intros Ht Hok. unfold Tunnels.stopMutation. rewrite Ht, Hok. reflexivity.
Qed.

(** ** Further properties of the message handler *)

Lemma dispatch_no_transport (ev : string) (data : option json) :
  Forall (fun e => is_transport e = false) (dispatch ev data).
Proof.
  unfold dispatch, attempt.
  repeat match goal with
         | |- context [if String.eqb ev ?s then _ else _] => destruct (String.eqb ev s)
         end;
    repeat match goal with
           | |- context [template_ok ?v] => destruct (template_ok v)
           end;
    repeat constructor.
Qed.

Lemma handleMessage_state (payload : Text) (st : State) :
  fst (handleMessage payload st)
  = match payload with
    | Malformed => st
    | WellFormed m => setLastMessage m st
    end.
Proof.
  unfold handleMessage. destruct payload as [|m]; [reflexivity|].
  destruct m; try reflexivity.
  destruct (prop (JObj fields) "event") as [[]|]; reflexivity.
Qed.

Lemma handleMessage_no_transport (payload : Text) (st : State) :
  Forall (fun e => is_transport e = false) (snd (handleMessage payload st)).
Proof.
  unfold handleMessage. destruct payload as [|m]; [repeat constructor|].
  destruct m; try (repeat constructor).
  destruct (prop (JObj fields) "event") as [[]|]; cbn [snd];
    try (repeat constructor).
  apply dispatch_no_transport.
Qed.

(** X1: whatever frame arrives on an open socket, recognized or not,
    well-formed or not, the handler changes nothing but [lastMessage]
    and makes no call on a socket or a timer: a message can neither
    close the connection nor start a reconnect, and nothing is ever sent
    back (a [ping] gets no reply from the hook). *)
Theorem X1_message_never_acts_on_connection
  (opts : Options) (st st' : State) (i : nat) (payload : Text) (eff : list Effect) :
  deliver opts st (SocketMessage i payload) = Some (st', eff) ->
  (st' = st \/ exists m, st' = setLastMessage m st)
  /\ sockets st' = sockets st /\ timers st' = timers st
  /\ wsRef st' = wsRef st /\ isConnected st' = isConnected st
  /\ reconnectCountRef st' = reconnectCountRef st
  /\ reconnectTimeoutRef st' = reconnectTimeoutRef st
  /\ Forall (fun e => is_transport e = false) eff.
Proof.
  intros H. cbn [deliver] in H.
  destruct (sockets st !! i) as [s|]; [|discriminate].
  destruct (readyState s); try discriminate.
  destruct (origin s).
  - injection H as H.
    pose proof (handleMessage_state payload st) as Hst.
    pose proof (handleMessage_no_transport payload st) as Heff.
    rewrite H in Hst, Heff. cbn [fst snd] in Hst, Heff.
    destruct payload as [|m]; subst st'.
    + repeat split; auto.
    + split; [right; exists m; reflexivity|]. repeat split; auto.
  - injection H as <- <-. repeat split; auto.
Qed.

Lemma X1_message_never_acts_on_connection_witness :
  exists st' eff,
    deliver defaultOptions open_state
      (SocketMessage 0 (WellFormed (JObj [("event", JStr "ping")]))) = Some (st', eff)
    /\ sockets st' = sockets open_state
    /\ Forall (fun e => is_transport e = false) eff.
Proof.
  exists (setLastMessage (JObj [("event", JStr "ping")]) open_state), [].
  split; [reflexivity|].
  destruct (X1_message_never_acts_on_connection defaultOptions open_state
              (setLastMessage (JObj [("event", JStr "ping")]) open_state) 0
              (WellFormed (JObj [("event", JStr "ping")])) [] eq_refl)
    as (_ & Hs & _ & _ & _ & _ & _ & Hf).
  split; assumption.
Defined.

Lemma template_ok_from (who ra : option json) :
  template_ok [who] = true ->
  template_ok [who; or_else ra (str "unknown")] = false ->
  exists j, ra = Some j /\ to_string_ok j = false.
Proof.
  unfold template_ok. cbn [forallb]. rewrite !andb_true_r.
  intros Hw H. rewrite Hw in H. cbn in H.
  unfold or_else in H. destruct (truthy ra) eqn:Et.
  - destruct ra as [j|]; [|discriminate]. exists j. auto.
  - discriminate.
Qed.

Lemma dispatch_toast_notification (ev : string) (data : option json) :
  (count_if is_notification (dispatch ev data) <= count_if is_toast (dispatch ev data) <= 1)%nat
  /\ ((count_if is_notification (dispatch ev data) < count_if is_toast (dispatch ev data))%nat ->
      ev = "beacon.new"
      /\ exists ra, opt_chain data "remote_address" = Some ra /\ to_string_ok ra = false).
Proof.
  unfold dispatch.
  repeat match goal with
         | |- context [if String.eqb ev ?s then _ else _] =>
             let E := fresh "E" in destruct (String.eqb ev s) eqn:E
         end;
    unfold attempt;
    repeat match goal with
           | |- context [template_ok ?v] =>
               let T := fresh "T" in destruct (template_ok v) eqn:T
           end;
    cbn; (split; [lia|]); intros Hlt; try lia.
  split; [apply String.eqb_eq; assumption|].
  eapply template_ok_from; eauto.
Qed.

(** X2: for every frame, the handler stores a notification only after
    raising a toast, and raises at most one toast. The toast goes
    without its notification only for a [beacon.new] frame whose
    [data.remote_address] cannot be converted to a string: the text of
    the toast does not use it, building the text of the notification
    throws. *)
Theorem X2_notification_follows_toast (payload : Text) (st : State) :
  (count_if is_notification (snd (handleMessage payload st))
   <= count_if is_toast (snd (handleMessage payload st)) <= 1)%nat
  /\ ((count_if is_notification (snd (handleMessage payload st))
       < count_if is_toast (snd (handleMessage payload st)))%nat ->
      exists m ra,
        payload = WellFormed m
        /\ prop m "event" = Some (JStr "beacon.new")
        /\ opt_chain (prop m "data") "remote_address" = Some ra
        /\ to_string_ok ra = false).
Proof.
  unfold handleMessage. destruct payload as [|m]; [cbn; split; lia|].
  destruct m; try (cbn; split; lia).
  destruct (prop (JObj fields) "event") as [[| | |ev| |]|] eqn:Eev; cbn [snd];
    try (cbn; split; lia).
  destruct (dispatch_toast_notification ev (prop (JObj fields) "data")) as (Hle & Hlt).
  split; [exact Hle|]. intros H.
  destruct (Hlt H) as (-> & ra & Hra & Hno).
  exists (JObj fields), ra. auto.
Qed.

Lemma X2_notification_follows_toast_witness :
  exists ra,
    opt_chain
      (prop (JObj [("event", JStr "beacon.new");
                   ("data", JObj [("name", JStr "b1");
                                  ("remote_address", JObj [("toString", JNum 0)])])])
            "data") "remote_address" = Some ra
    /\ to_string_ok ra = false.
Proof.
  destruct (proj2 (X2_notification_follows_toast
                     (WellFormed
                        (JObj [("event", JStr "beacon.new");
                               ("data", JObj [("name", JStr "b1");
                                              ("remote_address",
                                               JObj [("toString", JNum 0)])])]))
                     open_state) ltac:(cbn; lia))
    as (m & ra & Hm & _ & Hra & Hno).
  injection Hm as <-. exists ra. split; assumption.
Defined.

Lemma dispatch_refreshes_dashboard (ev : string) (data : option json) :
  invalidates "sessions" (dispatch ev data) \/ invalidates "beacons" (dispatch ev data) ->
  invalidates "dashboard-stats" (dispatch ev data).
Proof.
  unfold dispatch, invalidates, attempt.
  repeat match goal with
         | |- context [if String.eqb ev ?s then _ else _] => destruct (String.eqb ev s)
         end;
    repeat match goal with
           | |- context [template_ok ?v] => destruct (template_ok v)
           end;
    cbn; intros H;
    try (right; left; reflexivity);
    exfalso; repeat (destruct H as [H|H]; try discriminate H); try assumption.
Qed.

(** X3: whenever a frame makes the handler invalidate the session list
    or the beacon list, it also invalidates the dashboard statistics. *)
Theorem X3_lists_refresh_dashboard (payload : Text) (st : State) :
  invalidates "sessions" (snd (handleMessage payload st))
  \/ invalidates "beacons" (snd (handleMessage payload st)) ->
  invalidates "dashboard-stats" (snd (handleMessage payload st)).
Proof.
  unfold handleMessage. destruct payload as [|m].
  - cbn. unfold invalidates. cbn. intros [[H|[]]|[H|[]]]; discriminate H.
  - destruct m;
      try (cbn; unfold invalidates; cbn; intros [[H|[]]|[H|[]]]; discriminate H).
    destruct (prop (JObj fields) "event") as [[]|]; cbn [snd];
      try (unfold invalidates; cbn; intros [[H|[]]|[H|[]]]; discriminate H).
    apply dispatch_refreshes_dashboard.
Qed.

Lemma X3_lists_refresh_dashboard_witness :
  invalidates "dashboard-stats"
    (snd (handleMessage (WellFormed (JObj [("event", JStr "session.lost")])) open_state)).
Proof.
  apply (X3_lists_refresh_dashboard
           (WellFormed (JObj [("event", JStr "session.lost")])) open_state).
  left. left. reflexivity.
Defined.

(** ** The sockets, the reference and the connected flag *)

Lemma connect_state (st : State) :
  fst (connect st)
  = match getToken (authData st) with
    | Some tok =>
        mkState (Some (length (sockets st))) 0 (reconnectTimeoutRef st) (isConnected st)
          (lastMessage st) (disposed st)
          (closing_sockets st ++ [mkSocket CONNECTING ByConnect tok])
          (timers st) (authData st)
    | None =>
        mkState None 0 (reconnectTimeoutRef st) (isConnected st)
          (lastMessage st) (disposed st) (closing_sockets st) (timers st) (authData st)
    end.
Proof.
  unfold connect. rewrite !fst_andThen. unfold update. cbn [fst].
  rewrite close_current_state. cbn.
  destruct (getToken (authData st)); unfold new_socket; cbn;
    [rewrite length_closing_sockets|]; reflexivity.
Qed.

Lemma connect_state_tok (st : State) (tok : json) :
  getToken (authData st) = Some tok ->
  fst (connect st)
  = mkState (Some (length (sockets st))) 0 (reconnectTimeoutRef st) (isConnected st)
      (lastMessage st) (disposed st)
      (closing_sockets st ++ [mkSocket CONNECTING ByConnect tok])
      (timers st) (authData st).
Proof. intros H. rewrite connect_state, H. reflexivity. Qed.

Lemma openConnection_state (st : State) :
  fst (openConnection st) = st
  \/ exists tok,
       getToken (authData st) = Some tok /\ disposed st = false /\ is_open st = false
       /\ fst (openConnection st)
          = set_wsRef (Some (length (sockets st)))
              (set_sockets (sockets st ++ [mkSocket CONNECTING ByEffect tok]) st).
Proof.
  unfold openConnection.
  destruct (disposed st) eqn:Hd; [left; reflexivity|].
  destruct (is_open st) eqn:Ho; [left; reflexivity|].
  destruct (getToken (authData st)) as [tok|] eqn:Ht; [|left; reflexivity].
  right. exists tok. auto.
Qed.

Lemma onclose_conn (opts : Options) (o : Origin) (code : Z) (st : State) :
  wsRef (fst (onclose opts o code st)) = None
  /\ isConnected (fst (onclose opts o code st)) = false
  /\ sockets (fst (onclose opts o code st)) = sockets st.
Proof.
  unfold onclose. destruct o; cbn; [|auto].
  destruct (negb (disposed st) && negb (code =? 1000)
            && (reconnectCountRef st <? reconnectAttempts opts)); cbn; auto.
Qed.

(** Every event falls under one of the cases of [conn_step]. *)
Lemma deliver_conn_step (opts : Options) (st st' : State) (e : Event) (eff : list Effect) :
  deliver opts st e = Some (st', eff) -> conn_step st st'.
Proof.
  intros H.
  assert (Hfst : forall p : State * list Effect, Some p = Some (st', eff) -> st' = fst p)
    by (intros p Hp; injection Hp as ->; reflexivity).
  destruct e; cbn [deliver] in H.
  - destruct (sockets st !! i) as [s|] eqn:Hs; [|discriminate].
    destruct (readyState s) eqn:Hr; try discriminate.
    rewrite (Hfst _ H), (set_readyState_lookup _ _ _ _ Hs).
    eapply cs_opened; eauto; unfold onopen; destruct (origin s); reflexivity.
  - destruct (sockets st !! i) as [s|]; [|discriminate].
    destruct (readyState s); try discriminate.
    destruct (origin s); rewrite (Hfst _ H).
    + rewrite handleMessage_state. destruct payload; apply cs_same; reflexivity.
    + apply cs_same; reflexivity.
  - destruct (sockets st !! i) as [s|]; [|discriminate].
    destruct (readyState s); try discriminate; rewrite (Hfst _ H);
      apply cs_same; reflexivity.
  - destruct (sockets st !! i) as [s|] eqn:Hs; [|discriminate].
    assert (Hne : readyState s <> CLOSED)
      by (intros E; rewrite E in H; discriminate).
    assert (Hst : st' = fst (onclose opts (origin s) code (set_readyState i CLOSED st)))
      by (destruct (readyState s); try discriminate; apply Hfst, H).
    rewrite Hst, (set_readyState_lookup _ _ _ _ Hs).
    destruct (onclose_conn opts (origin s) code
                (set_sockets (<[i:=mkSocket CLOSED (origin s) (urlToken s)]> (sockets st)) st))
      as (Hw & Hc & Hso).
    eapply cs_closed; eauto.
  - destruct (timers st !! t) as [tm|] eqn:Ht; [|discriminate].
    destruct (is_pending tm); [|discriminate].
    rewrite (Hfst _ H).
    assert (Hm : mark_fired t st
                 = set_timers (<[t := mkTimer (delay tm) Fired (scheduledBy tm)]> (timers st)) st)
      by (unfold mark_fired; rewrite Ht; reflexivity).
    destruct (openConnection_state (mark_fired t st)) as [E|(tok & Htok & Hd & Ho & E)];
      rewrite E, Hm in *.
    + apply cs_same; reflexivity.
    + eapply cs_new; eauto.
  - destruct (autoConnect opts && negb (disposed st)); rewrite (Hfst _ H).
    + destruct key as [k|]; [|apply cs_same; reflexivity].
      destruct (String.eqb k AUTH_KEY) eqn:Ek.
      * apply String.eqb_eq in Ek. subst k.
        rewrite handleStorageChange_state.
        destruct (getToken newValue); apply cs_released; reflexivity.
      * unfold handleStorageChange. rewrite Ek. apply cs_same; reflexivity.
    + apply cs_same; reflexivity.
  - rewrite (Hfst _ H). apply cs_same; reflexivity.
  - rewrite (Hfst _ H), connect_state.
    destruct (getToken (authData st)) as [tok|] eqn:Ht.
    + eapply cs_replaced; eauto.
    + apply cs_dropped; auto.
  - rewrite (Hfst _ H), disconnect_state. apply cs_released; reflexivity.
  - rewrite (Hfst _ H). unfold send.
    destruct (wsRef st); [destruct (is_open st)|]; apply cs_same; reflexivity.
  - destruct (autoConnect opts && negb (disposed st)); [|discriminate].
    rewrite (Hfst _ H), cleanup_state. apply cs_released; reflexivity.
  - destruct (sockets st !! i) as [s|] eqn:Hs; [|discriminate].
    destruct (readyState s) eqn:Hr; try discriminate.
    rewrite (Hfst _ H), (set_readyState_lookup _ _ _ _ Hs).
    eapply cs_closing; eauto.
Qed.

Lemma getToken_truthy (auth : option Text) (tok : json) :
  getToken auth = Some tok -> truthy (Some tok) = true.
Proof.
  unfold getToken. destruct auth as [[|v]|]; try discriminate.
  destruct v; try discriminate.
  destruct (truthy (opt_chain (prop (JObj fields) "state") "accessToken")) eqn:E;
    [|discriminate].
  intros H. rewrite H in E. exact E.
Qed.

Lemma closing_sockets_lookup (st : State) (k : nat) (s : Socket) :
  sockets st !! k = Some s ->
  exists s', closing_sockets st !! k = Some s'
    /\ origin s' = origin s /\ urlToken s' = urlToken s
    /\ (readyState s' = readyState s
        \/ (wsRef st = Some k /\ readyState s' = CLOSING
            /\ (readyState s = CONNECTING \/ readyState s = OPEN))).
Proof.
  intros Hk. unfold closing_sockets.
  destruct (wsRef st) as [i|]; [|exists s; auto].
  destruct (sockets st !! i) as [si|] eqn:Hi; [|exists s; auto].
  destruct (decide (i = k)) as [->|Hne].
  - rewrite Hk in Hi. injection Hi as <-.
    rewrite list_lookup_insert_eq by (eapply lookup_lt_Some; eauto).
    exists (closing s). split; [reflexivity|]. unfold closing. cbn.
    destruct (readyState s); auto 10.
  - rewrite list_lookup_insert_ne by exact Hne. exists s; auto.
Qed.

Lemma closing_sockets_lookup_inv (st : State) (k : nat) (s' : Socket) :
  closing_sockets st !! k = Some s' ->
  exists s, sockets st !! k = Some s /\ urlToken s' = urlToken s /\ origin s' = origin s.
Proof.
  intros Hk.
  destruct (sockets st !! k) as [s|] eqn:E.
  - destruct (closing_sockets_lookup st k s E) as (s2 & H2 & Ho & Ht & _).
    rewrite Hk in H2. injection H2 as <-. exists s. auto.
  - apply lookup_ge_None in E. rewrite <- length_closing_sockets in E.
    apply lookup_ge_None in E. congruence.
Qed.

Lemma conn_step_tokens (st st' : State) :
  conn_step st st' -> sockets_have_token st -> sockets_have_token st'.
Proof.
  unfold sockets_have_token.
  assert (Hcl : Forall (fun s => truthy (Some (urlToken s)) = true) (sockets st) ->
                Forall (fun s => truthy (Some (urlToken s)) = true) (closing_sockets st)).
  { intros HF. apply Forall_lookup_2. intros k s' Hk.
    destruct (closing_sockets_lookup_inv st k s' Hk) as (s & Hs & Ht & _).
    rewrite Ht. exact (Forall_lookup_1 _ _ _ _ HF Hs). }
  intros [Hs _ _|i s Hl _ Hs _ _|i s Hl _ Hs _ _|tok Ht _ _ Hs _ _|Hs _ _
         |tok Ht Hs _ _|_ Hs _ _|i s Hl _ Hs _ _] HF; rewrite Hs; auto.
  - apply Forall_insert; [exact HF|]. exact (Forall_lookup_1 _ _ _ _ HF Hl).
  - apply Forall_insert; [exact HF|]. exact (Forall_lookup_1 _ _ _ _ HF Hl).
  - apply Forall_app_2; [exact HF|].
    apply Forall_cons_2; [eapply getToken_truthy; eauto|apply Forall_nil_2].
  - apply Forall_app_2; [auto|].
    apply Forall_cons_2; [eapply getToken_truthy; eauto|apply Forall_nil_2].
  - apply Forall_insert; [exact HF|]. exact (Forall_lookup_1 _ _ _ _ HF Hl).
Qed.

Lemma conn_step_ref (st st' : State) :
  conn_step st st' -> ref_is_live st -> ref_is_live st'.
Proof.
  unfold ref_is_live.
  assert (Hins : forall (l : list Socket) i k s0 rs,
            rs <> CLOSED ->
            (exists s, l !! k = Some s /\ readyState s <> CLOSED) ->
            exists s, <[i := mkSocket rs (origin s0) (urlToken s0)]> l !! k = Some s
                      /\ readyState s <> CLOSED).
  { intros l i k s0 rs Hrs (s & Hk & Hne).
    destruct (decide (i = k)) as [->|Hik].
    - rewrite list_lookup_insert_eq by (eapply lookup_lt_Some; eauto).
      eexists; split; [reflexivity|exact Hrs].
    - rewrite list_lookup_insert_ne by exact Hik. eauto. }
  intros [Hs Hw _|i s Hl Hr Hs Hw _|i s Hl _ Hs Hw _|tok _ _ _ Hs Hw _|Hs Hw _
         |tok _ Hs Hw _|_ Hs Hw _|i s Hl Hr Hs Hw _] HI k Hk;
    rewrite Hw in Hk; try discriminate.
  - rewrite Hs. auto.
  - rewrite Hs. apply Hins; [discriminate|auto].
  - injection Hk as <-. rewrite Hs, list_lookup_middle by reflexivity.
    eexists; split; [reflexivity|discriminate].
  - injection Hk as <-. rewrite Hs, <- (length_closing_sockets st).
    rewrite list_lookup_middle by reflexivity.
    eexists; split; [reflexivity|discriminate].
  - rewrite Hs. apply Hins; [discriminate|auto].
Qed.

Lemma conn_step_flag (st st' : State) :
  conn_step st st' -> flag_is_backed st -> flag_is_backed st'.
Proof.
  unfold flag_is_backed.
  assert (Hcl : forall i s, sockets st !! i = Some s ->
                  readyState s = OPEN \/ readyState s = CLOSING ->
                  exists s', closing_sockets st !! i = Some s'
                             /\ (readyState s' = OPEN \/ readyState s' = CLOSING)).
  { intros i s Hl Hr.
    destruct (closing_sockets_lookup st i s Hl) as (s' & Hl' & _ & _ & [E|(_ & E & _)]).
    - exists s'. rewrite E. auto.
    - exists s'. auto. }
  intros [Hs _ Hc|i s Hl Hr Hs _ Hc|i s Hl _ Hs _ Hc|tok _ _ _ Hs _ Hc|Hs _ Hc
         |tok _ Hs _ Hc|_ Hs _ Hc|i s Hl Hr Hs _ Hc] HI Hflag;
    rewrite Hc in Hflag; try discriminate.
  - rewrite Hs. auto.
  - exists i. rewrite Hs, list_lookup_insert_eq by (eapply lookup_lt_Some; eauto).
    eexists; split; [reflexivity|]. left; reflexivity.
  - destruct (HI Hflag) as (k & sk & Hk & Hr).
    exists k, sk. rewrite Hs. split; [|exact Hr].
    apply lookup_app_l_Some. exact Hk.
  - destruct (HI Hflag) as (k & sk & Hk & Hr).
    destruct (Hcl k sk Hk Hr) as (s' & Hk' & Hr').
    exists k, s'. rewrite Hs. split; [|exact Hr'].
    apply lookup_app_l_Some. exact Hk'.
  - destruct (HI Hflag) as (k & sk & Hk & Hr).
    destruct (Hcl k sk Hk Hr) as (s' & Hk' & Hr').
    exists k, s'. rewrite Hs. auto.
  - destruct (HI Hflag) as (k & sk & Hk & Hrk). rewrite Hs.
    destruct (decide (i = k)) as [->|Hik].
    + exists k. rewrite list_lookup_insert_eq by (eapply lookup_lt_Some; eauto).
      eexists; split; [reflexivity|]. right; reflexivity.
    + exists k, sk. rewrite list_lookup_insert_ne by exact Hik. auto.
Qed.

Lemma mount_conn (opts : Options) (auth : option Text) :
  fst (mount opts auth) = initial auth
  \/ exists tok, getToken auth = Some tok
       /\ fst (mount opts auth)
          = set_wsRef (Some 0%nat)
              (set_sockets [mkSocket CONNECTING ByEffect tok] (initial auth)).
Proof.
  unfold mount. destruct (autoConnect opts); [|left; reflexivity].
  destruct (openConnection_state (initial auth)) as [E|(tok & Ht & _ & _ & E)].
  - left; exact E.
  - right. exists tok. split; [exact Ht|exact E].
Qed.

(** X4: every socket the hook ever opens, on mount, by a timer or by
    [connect()], carries a token that is truthy: the hook never connects
    with a missing, null or empty token in the URL. *)
Theorem X4_sockets_carry_a_token (opts : Options) (st : State) :
  reachable opts st -> sockets_have_token st.
Proof.
  apply reachable_invariant.
  - intros auth. unfold sockets_have_token.
    destruct (mount_conn opts auth) as [->|(tok & Ht & ->)]; cbn.
    + apply Forall_nil_2.
    + apply Forall_cons_2; [eapply getToken_truthy; eauto|apply Forall_nil_2].
  - intros s e s' eff HI Hd. eapply conn_step_tokens; eauto using deliver_conn_step.
Qed.

Lemma X4_sockets_carry_a_token_witness : sockets_have_token six_failures.
Proof.
  exact (X4_sockets_carry_a_token defaultOptions six_failures six_failures_reachable).
Defined.

(** X5: in every reachable state the socket held in [wsRef] exists and
    has not closed: the close event of a socket clears the reference in
    the same handler that sees it closed (the socket may be connecting,
    open, or closing when the peer has started the closing handshake). *)
Theorem X5_reference_is_live (opts : Options) (st : State) :
  reachable opts st -> ref_is_live st.
Proof.
  apply reachable_invariant.
  - intros auth i Hi.
    destruct (mount_conn opts auth) as [E|(tok & Ht & E)]; rewrite E in *; cbn in *.
    + discriminate.
    + injection Hi as <-. eexists; split; [reflexivity|discriminate].
  - intros s e s' eff HI Hd. eapply conn_step_ref; eauto using deliver_conn_step.
Qed.

(** X6: in every reachable state, if [isConnected] is true then some
    socket has opened and has not yet delivered its close event (it is
    open, or closing after a [close()] of the hook). *)
Theorem X6_connected_flag_is_backed (opts : Options) (st : State) :
  reachable opts st -> flag_is_backed st.
Proof.
  apply reachable_invariant.
  - intros auth Hflag.
    destruct (mount_conn opts auth) as [E|(tok & Ht & E)]; rewrite E in *; cbn in *;
      discriminate.
  - intros s e s' eff HI Hd. eapply conn_step_flag; eauto using deliver_conn_step.
Qed.

Lemma open_state_reachable : reachable defaultOptions open_state.
Proof.
  exists sample_token, [SocketOpen 0%nat]. eexists. vm_compute. reflexivity.
Defined.

Lemma peer_closing_reachable : reachable defaultOptions peer_closing.
Proof.
  exists sample_token, [SocketOpen 0%nat; SocketClosing 0%nat].
  eexists. vm_compute. reflexivity.
Defined.

Lemma X5_reference_is_live_witness : ref_is_live peer_closing.
Proof.
  exact (X5_reference_is_live defaultOptions peer_closing peer_closing_reachable).
Defined.

Lemma X6_connected_flag_is_backed_witness : flag_is_backed open_state.
Proof.
  exact (X6_connected_flag_is_backed defaultOptions open_state open_state_reachable).
Defined.

(** ** After the cleanup of the effect *)

Lemma openConnection_disposed (st : State) :
  disposed st = true -> openConnection st = (st, []).
Proof. intros H. unfold openConnection. rewrite H. reflexivity. Qed.

(** Once disposed, an event other than a manual [connect()] opens no
    socket and sets no timer. *)
Lemma disposed_step (opts : Options) (st st' : State) (e : Event) (eff : list Effect) :
  disposed st = true -> wsRef st = None -> is_connect e = false ->
  deliver opts st e = Some (st', eff) ->
  disposed st' = true /\ wsRef st' = None
  /\ length (sockets st') = length (sockets st)
  /\ length (timers st') = length (timers st).
Proof.
  intros Hd Hw Hnc H.
  assert (Hfst : forall p : State * list Effect, Some p = Some (st', eff) -> st' = fst p)
    by (intros p Hp; injection Hp as ->; reflexivity).
  destruct e; cbn [deliver is_connect] in H, Hnc; try discriminate.
  - destruct (sockets st !! i) as [s|] eqn:Hs; [|discriminate].
    destruct (readyState s); try discriminate.
    rewrite (Hfst _ H), (set_readyState_lookup _ _ _ _ Hs).
    unfold onopen. destruct (origin s); cbn; rewrite length_insert; auto.
  - destruct (sockets st !! i) as [s|]; [|discriminate].
    destruct (readyState s); try discriminate.
    destruct (origin s); rewrite (Hfst _ H); [rewrite handleMessage_state|]; auto.
    destruct payload; auto.
  - destruct (sockets st !! i) as [s|]; [|discriminate].
    destruct (readyState s); try discriminate; rewrite (Hfst _ H); auto.
  - destruct (sockets st !! i) as [s|] eqn:Hs; [|discriminate].
    assert (Hst : st' = fst (onclose opts (origin s) code (set_readyState i CLOSED st)))
      by (destruct (readyState s); try discriminate; apply Hfst, H).
    rewrite Hst, (set_readyState_lookup _ _ _ _ Hs).
    destruct (origin s).
    + rewrite onclose_no_retry by (right; right; exact Hd).
      cbn. rewrite length_insert. auto.
    + cbn. rewrite length_insert. auto.
  - destruct (timers st !! t) as [tm|] eqn:Ht; [|discriminate].
    destruct (is_pending tm); [|discriminate].
    rewrite (Hfst _ H), openConnection_disposed
      by (unfold mark_fired; rewrite Ht; exact Hd).
    unfold mark_fired. rewrite Ht. cbn. rewrite length_insert. auto.
  - rewrite Hd, andb_false_r in H. rewrite (Hfst _ H). auto.
  - rewrite (Hfst _ H). auto.
  - rewrite (Hfst _ H), disconnect_state. cbn.
    rewrite length_closing_sockets, length_cleared_timers. auto.
  - rewrite (Hfst _ H). unfold send. rewrite Hw. auto.
  - rewrite Hd, andb_false_r in H. discriminate.
  - destruct (sockets st !! i) as [s|] eqn:Hs; [|discriminate].
    destruct (readyState s); try discriminate.
    rewrite (Hfst _ H), (set_readyState_lookup _ _ _ _ Hs). cbn.
    rewrite length_insert. auto.
Qed.

Lemma disposed_run (opts : Options) (evs : list Event) :
  forall st st' eff,
    disposed st = true -> wsRef st = None ->
    Forall (fun e => is_connect e = false) evs ->
    run opts st evs = Some (st', eff) ->
    disposed st' = true /\ wsRef st' = None
    /\ length (sockets st') = length (sockets st)
    /\ length (timers st') = length (timers st).
Proof.
  induction evs as [|e rest IH]; intros st st' eff Hd Hw Hnc Hrun.
  - cbn in Hrun. injection Hrun as <- _. auto.
  - cbn in Hrun.
    destruct (deliver opts st e) as [[st1 e1]|] eqn:Hdel; [|discriminate].
    destruct (run opts st1 rest) as [[st2 e2]|] eqn:Hr; [|discriminate].
    injection Hrun as <- _.
    apply Forall_cons_1 in Hnc. destruct Hnc as [Hne Hnrest].
    destruct (disposed_step opts st st1 e e1 Hd Hw Hne Hdel) as (Hd1 & Hw1 & Hs1 & Ht1).
    destruct (IH st1 st2 e2 Hd1 Hw1 Hnrest Hr) as (Hd2 & Hw2 & Hs2 & Ht2).
    repeat split; congruence.
Qed.

Lemma cleanup_effects (st : State) :
  (forall t, reconnectTimeoutRef st = Some t -> In (ClearTimeout t) (snd (cleanup st)))
  /\ (forall i, wsRef st = Some i ->
        In (WsClose i 1000 "Component unmounted") (snd (cleanup st))).
Proof.
  unfold cleanup. rewrite !snd_andThen.
  set (s1 := fst (update (set_disposed true) st)).
  assert (Hr : reconnectTimeoutRef s1 = reconnectTimeoutRef st) by reflexivity.
  assert (Hw : wsRef s1 = wsRef st) by reflexivity.
  split.
  - intros t Ht. apply in_or_app. right. apply in_or_app. left.
    unfold clear_reconnect_timeout. rewrite Hr, Ht. left; reflexivity.
  - intros i Hi. apply in_or_app. right. apply in_or_app. right.
    apply in_or_app. left.
    rewrite (close_current_effects _ _ i).
    + left; reflexivity.
    + rewrite clear_reconnect_timeout_state. exact Hi.
Qed.

(** X7: the cleanup of the effect closes the current socket with code
    1000, cancels the timer whose handle is stored and sets [disposed].
    From then on, as long as the effect does not run again and
    [connect()] is not called, no event opens a socket or sets a timer:
    timers that were still pending fire without effect and late close
    events schedule no retry. *)
Theorem X7_disposed_effect_is_inert
  (opts : Options) (st st1 : State) (eff1 : list Effect) :
  deliver opts st Unmount = Some (st1, eff1) ->
  disposed st1 = true /\ wsRef st1 = None /\ isConnected st1 = false
  /\ reconnectTimeoutRef st1 = None
  /\ (forall i s, wsRef st = Some i -> sockets st !! i = Some s ->
        In (WsClose i 1000 "Component unmounted") eff1
        /\ exists s', sockets st1 !! i = Some s'
                      /\ readyState s' <> OPEN /\ readyState s' <> CONNECTING)
  /\ (forall t tm, reconnectTimeoutRef st = Some t -> timers st !! t = Some tm ->
        In (ClearTimeout t) eff1
        /\ exists tm', timers st1 !! t = Some tm' /\ status tm' <> Pending)
  /\ forall evs st' eff,
       Forall (fun e => is_connect e = false) evs ->
       run opts st1 evs = Some (st', eff) ->
       disposed st' = true /\ wsRef st' = None
       /\ length (sockets st') = length (sockets st)
       /\ length (timers st') = length (timers st).
Proof.
  intros H. cbn [deliver] in H.
  destruct (autoConnect opts && negb (disposed st)); [|discriminate].
  assert (Hst : st1 = fst (cleanup st)) by (injection H as ->; reflexivity).
  assert (Heff : eff1 = snd (cleanup st)) by (injection H as ->; reflexivity).
  destruct (cleanup_effects st) as (Hclear & Hclose).
  rewrite cleanup_state in Hst. subst st1 eff1. cbn.
  do 4 (split; [reflexivity|]).
  split.
  { intros i s Hw Hs. split; [apply Hclose, Hw|].
    destruct (closing_sockets_current st i s Hw Hs) as (s' & H1 & H2 & H3 & _).
    exists s'. auto. }
  split.
  { intros t tm Hr Hl. split; [apply Hclear, Hr|].
    unfold cleared_timers. rewrite Hr.
    destruct (lookup_lt_is_Some_2 (clearTimeout t (timers st)) t) as [tm' Htm'].
    - rewrite length_clearTimeout. eapply lookup_lt_Some; eauto.
    - exists tm'. split; [exact Htm'|]. eapply clearTimeout_not_pending; eauto. }
  intros evs st' eff Hnc Hrun.
  match type of Hrun with
  | run opts ?X evs = _ =>
      destruct (disposed_run opts evs X st' eff eq_refl eq_refl Hnc Hrun)
        as (Hd & Hw & Hs & Ht)
  end.
  cbn in Hs, Ht. rewrite length_closing_sockets in Hs.
  rewrite length_cleared_timers in Ht. auto.
Qed.

Lemma X7_disposed_effect_is_inert_witness :
  exists st1 eff1,
    deliver defaultOptions one_failure Unmount = Some (st1, eff1)
    /\ disposed st1 = true /\ wsRef st1 = None
    /\ In (ClearTimeout 0) eff1.
Proof.
  exists (fst (cleanup one_failure)), (snd (cleanup one_failure)).
  assert (H : deliver defaultOptions one_failure Unmount
              = Some (fst (cleanup one_failure), snd (cleanup one_failure)))
    by reflexivity.
  split; [exact H|].
  destruct (X7_disposed_effect_is_inert defaultOptions one_failure _ _ H)
    as (Hd & Hw & _ & _ & _ & Ht & _).
  split; [exact Hd|]. split; [exact Hw|].
  exact (proj1 (Ht 0%nat (mkTimer 3000 Pending Retry) eq_refl eq_refl)).
Defined.

(** ** Stale sockets and timers *)

(** X8: the close event of any socket other than the current one (one
    that [connect()] replaced, say) still clears [wsRef] and the
    connected flag, although the current socket is untouched; from then
    on [send] only warns, even if the current socket is open. *)
Theorem X8_stale_close_drops_current_socket
  (opts : Options) (st : State) (i j : nat) (sj : Socket) (code : Z) :
  wsRef st = Some i -> i <> j ->
  sockets st !! j = Some sj -> readyState sj <> CLOSED ->
  exists st' eff,
    deliver opts st (SocketClose j code) = Some (st', eff)
    /\ wsRef st' = None /\ isConnected st' = false
    /\ sockets st' !! i = sockets st !! i
    /\ forall data,
         deliver opts st' (Send data) = Some (st', [ConsoleWarn NOT_CONNECTED]).
Proof.
  intros Hw Hne Hj Hr.
  rewrite (deliver_SocketClose opts st j sj code Hj Hr).
  rewrite (set_readyState_lookup _ _ _ _ Hj).
  destruct (onclose opts (origin sj) code
              (set_sockets (<[j:=mkSocket CLOSED (origin sj) (urlToken sj)]> (sockets st)) st))
    as [st' eff] eqn:E.
  destruct (onclose_conn opts (origin sj) code
              (set_sockets (<[j:=mkSocket CLOSED (origin sj) (urlToken sj)]> (sockets st)) st))
    as (H1 & H2 & H3).
  rewrite E in H1, H2, H3. cbn [fst] in H1, H2, H3. cbn in H3.
  exists st', eff. split; [reflexivity|]. split; [exact H1|]. split; [exact H2|].
  split.
  - rewrite H3. apply list_lookup_insert_ne. congruence.
  - intros data. cbn [deliver]. unfold send. rewrite H1. reflexivity.
Qed.

Lemma X8_stale_close_drops_current_socket_witness :
  is_open manual_open_state = true
  /\ exists st' eff,
       deliver defaultOptions manual_open_state (SocketClose 0 1000) = Some (st', eff)
       /\ wsRef st' = None /\ isConnected st' = false
       /\ sockets st' !! 1%nat = sockets manual_open_state !! 1%nat.
Proof.
  split; [reflexivity|].
  destruct (X8_stale_close_drops_current_socket defaultOptions manual_open_state
              1 0 (mkSocket CLOSING ByEffect (JStr "abc")) 1000
              eq_refl ltac:(discriminate) eq_refl ltac:(discriminate))
    as (st' & eff & Hd & Hw & Hc & Hs & _).
  exists st', eff. repeat split; assumption.
Defined.

(** X9: [connect()] leaves timers alone. If a timer of the hook is
    pending when [connect()] is called and fires before the new socket
    has opened, [openConnection] opens a second socket and stores it in
    [wsRef]: the socket made by [connect()] stays connecting and is no
    longer referenced. *)
Theorem X9_connect_races_pending_timer
  (opts : Options) (st : State) (t : nat) (tm : Timer) (tok : json) :
  disposed st = false -> getToken (authData st) = Some tok ->
  timers st !! t = Some tm -> status tm = Pending ->
  exists st1 eff1 st2 eff2,
    deliver opts st Connect = Some (st1, eff1)
    /\ timers st1 = timers st
    /\ wsRef st1 = Some (length (sockets st))
    /\ deliver opts st1 (TimerFire t) = Some (st2, eff2)
    /\ sockets st2 = closing_sockets st
                     ++ [mkSocket CONNECTING ByConnect tok;
                         mkSocket CONNECTING ByEffect tok]
    /\ wsRef st2 = Some (S (length (sockets st))).
Proof.
  intros Hd Htok Ht Hp.
  exists (fst (connect st)), (snd (connect st)).
  rewrite connect_state, Htok.
  set (st1 := mkState _ _ _ _ _ _ _ _ _).
  assert (Hfire : deliver opts st1 (TimerFire t)
                  = Some (openConnection (mark_fired t st1))).
  { cbn [deliver]. subst st1. cbn [timers]. rewrite Ht.
    unfold is_pending. rewrite Hp. reflexivity. }
  assert (Hopen : openConnection (mark_fired t st1)
                  = new_socket ByEffect tok (mark_fired t st1)).
  { unfold openConnection, mark_fired. subst st1. cbn [timers]. rewrite Ht.
    cbn. rewrite Hd. unfold is_open, current_readyState. cbn.
    rewrite <- (length_closing_sockets st), list_lookup_middle by reflexivity.
    cbn. rewrite Htok. reflexivity. }
  exists (fst (new_socket ByEffect tok (mark_fired t st1))),
         (snd (new_socket ByEffect tok (mark_fired t st1))).
  split.
  { cbn [deliver]. f_equal. subst st1.
    rewrite <- connect_state_tok by exact Htok.
    destruct (connect st); reflexivity. }
  split; [reflexivity|]. split; [reflexivity|].
  split.
  { rewrite Hfire, Hopen.
    destruct (new_socket ByEffect tok (mark_fired t st1)); reflexivity. }
  unfold new_socket, mark_fired. subst st1. cbn [timers]. rewrite Ht. cbn.
  rewrite <- app_assoc. cbn. split; [reflexivity|].
  rewrite length_app, length_closing_sockets. cbn.
  f_equal. lia.
Qed.

Lemma X9_connect_races_pending_timer_witness :
  exists st1 eff1 st2 eff2,
    deliver defaultOptions one_failure Connect = Some (st1, eff1)
    /\ deliver defaultOptions st1 (TimerFire 0) = Some (st2, eff2)
    /\ wsRef st2 = Some 2%nat.
Proof.
  destruct (X9_connect_races_pending_timer defaultOptions one_failure 0
              (mkTimer 3000 Pending Retry) (JStr "abc")
              eq_refl eq_refl eq_refl eq_refl)
    as (st1 & eff1 & st2 & eff2 & H1 & _ & _ & H2 & _ & H3).
  exists st1, eff1, st2, eff2. repeat split; assumption.
Defined.

(** ** The retry budget between two resets *)

(** An event that does not reset the counter either leaves the counter
    and the number of timers alone, or, the counter being below the
    maximum, adds one to both. *)
Lemma budget_step (opts : Options) (st st' : State) (e : Event) (eff : list Effect) :
  resets_counter e = false ->
  deliver opts st e = Some (st', eff) ->
  (reconnectCountRef st' = reconnectCountRef st
   /\ length (timers st') = length (timers st))
  \/ (reconnectCountRef st < reconnectAttempts opts
      /\ reconnectCountRef st' = reconnectCountRef st + 1
      /\ length (timers st') = S (length (timers st))).
Proof.
  intros Hnr H.
  assert (Hfst : forall p : State * list Effect, Some p = Some (st', eff) -> st' = fst p)
    by (intros p Hp; injection Hp as ->; reflexivity).
  destruct e; cbn [deliver resets_counter is_trigger] in H, Hnr; try discriminate.
  - destruct (sockets st !! i) as [s|]; [|discriminate].
    destruct (readyState s); try discriminate.
    destruct (origin s); rewrite (Hfst _ H); [rewrite handleMessage_state|]; auto.
    destruct payload; auto.
  - destruct (sockets st !! i) as [s|]; [|discriminate].
    destruct (readyState s); try discriminate; rewrite (Hfst _ H); auto.
  - destruct (sockets st !! i) as [s|] eqn:Hs; [|discriminate].
    assert (Hst : st' = fst (onclose opts (origin s) code (set_readyState i CLOSED st)))
      by (destruct (readyState s); try discriminate; apply Hfst, H).
    rewrite Hst, (set_readyState_lookup _ _ _ _ Hs).
    destruct (origin s); [|cbn; auto].
    destruct (disposed st) eqn:Hd;
      [rewrite onclose_no_retry by (right; right; exact Hd); cbn; auto|].
    destruct (Z.eq_dec code 1000) as [Hc|Hc];
      [rewrite onclose_no_retry by (left; exact Hc); cbn; auto|].
    destruct (Z.lt_ge_cases (reconnectCountRef st) (reconnectAttempts opts)) as [Hlt|Hge];
      [|rewrite onclose_no_retry by (right; left; exact Hge); cbn; auto].
    rewrite onclose_retry by (cbn; auto). cbn. right.
    rewrite length_app. cbn. repeat split; auto; lia.
  - destruct (timers st !! t) as [tm|] eqn:Ht; [|discriminate].
    destruct (is_pending tm); [|discriminate].
    rewrite (Hfst _ H).
    destruct (openConnection_count_timers (mark_fired t st)) as [-> ->].
    unfold mark_fired. rewrite Ht. cbn. rewrite length_insert. auto.
  - assert (Hid : handleStorageChange key newValue = update id).
    { unfold handleStorageChange. destruct key as [k|]; [|reflexivity].
      rewrite Hnr. reflexivity. }
    rewrite Hid in H.
    destruct (autoConnect opts && negb (disposed st)); rewrite (Hfst _ H); auto.
  - rewrite (Hfst _ H). auto.
  - rewrite (Hfst _ H), disconnect_state. cbn. rewrite length_cleared_timers. auto.
  - rewrite (Hfst _ H). unfold send.
    destruct (wsRef st); [destruct (is_open st)|]; auto.
  - destruct (autoConnect opts && negb (disposed st)); [|discriminate].
    rewrite (Hfst _ H), cleanup_state. cbn. rewrite length_cleared_timers. auto.
  - destruct (sockets st !! i) as [s|] eqn:Hs; [|discriminate].
    destruct (readyState s); try discriminate.
    rewrite (Hfst _ H), (set_readyState_lookup _ _ _ _ Hs). cbn. auto.
Qed.

(** X10: in any run during which no socket opens and no explicit
    trigger occurs, every timer that is set is a retry that raises the
    counter by one, and the counter does not pass the maximum: the
    number of retries scheduled in the run is the growth of the counter,
    at most [reconnectAttempts] minus its initial value. *)
Theorem X10_retries_are_counted (opts : Options) (evs : list Event) :
  forall st st' eff,
    reconnectCountRef st <= reconnectAttempts opts ->
    Forall (fun e => resets_counter e = false) evs ->
    run opts st evs = Some (st', eff) ->
    Z.of_nat (length (timers st')) - Z.of_nat (length (timers st))
    = reconnectCountRef st' - reconnectCountRef st
    /\ reconnectCountRef st <= reconnectCountRef st' <= reconnectAttempts opts.
Proof.
  induction evs as [|e rest IH]; intros st st' eff Hle Hnr Hrun.
  - cbn in Hrun. injection Hrun as <- _. lia.
  - cbn in Hrun.
    destruct (deliver opts st e) as [[st1 e1]|] eqn:Hd; [|discriminate].
    destruct (run opts st1 rest) as [[st2 e2]|] eqn:Hr; [|discriminate].
    injection Hrun as <- _.
    apply Forall_cons_1 in Hnr. destruct Hnr as [Hne Hnrest].
    destruct (budget_step opts st st1 e e1 Hne Hd) as [(Hc & Hl)|(Hlt & Hc & Hl)].
    + destruct (IH st1 st2 e2 ltac:(lia) Hnrest Hr) as (H1 & H2). lia.
    + destruct (IH st1 st2 e2 ltac:(lia) Hnrest Hr) as (H1 & H2). lia.
Qed.

Lemma X10_retries_are_counted_witness :
  exists st' eff,
    run defaultOptions mounted (failures_from 0 5 ++ [SocketClose 5 1006]) = Some (st', eff)
    /\ Z.of_nat (length (timers st')) - Z.of_nat (length (timers mounted))
       = reconnectCountRef st' - reconnectCountRef mounted.
Proof.
  destruct six_failures_run as (eff & Hrun).
  exists six_failures, eff. split; [exact Hrun|].
  refine (proj1 (X10_retries_are_counted defaultOptions _ mounted six_failures eff
                   ltac:(cbn; lia) _ Hrun)).
  repeat constructor.
Defined.

(** ** The theme hook *)

Lemma class_remove_In (token c : string) (classes : list string) :
  In c (Theme.class_remove token classes) <-> In c classes /\ c <> token.
Proof.
  unfold Theme.class_remove. rewrite List.filter_In.
  destruct (String.eqb_spec c token); cbn; intuition congruence.
Qed.

Lemma class_add_In (token c : string) (classes : list string) :
  In c (Theme.class_add token classes) <-> In c classes \/ c = token.
Proof.
  unfold Theme.class_add.
  destruct (existsb (String.eqb token) classes) eqn:E.
  - apply existsb_exists in E. destruct E as (x & Hx & Ex).
    apply String.eqb_eq in Ex. subst x. intuition congruence.
  - rewrite in_app_iff. cbn. intuition congruence.
Qed.

Lemma applyToDOM_In (effective c : string) (classes : list string) :
  In c (Theme.applyToDOM effective classes)
  <-> c = effective \/ (In c classes /\ c <> "light" /\ c <> "dark").
Proof.
  unfold Theme.applyToDOM.
  rewrite class_add_In, class_remove_In, class_remove_In. intuition.
Qed.

Lemma class_remove_NoDup (token : string) (classes : list string) :
  List.NoDup classes -> List.NoDup (Theme.class_remove token classes).
Proof. intros H. apply List.NoDup_filter, H. Qed.

Lemma class_add_NoDup (token : string) (classes : list string) :
  List.NoDup classes -> List.NoDup (Theme.class_add token classes).
Proof.
  intros H. unfold Theme.class_add.
  destruct (existsb (String.eqb token) classes) eqn:E; [exact H|].
  apply List.NoDup_app; [exact H|repeat constructor; cbn; tauto|].
  intros x Hx [Ex|[]]. subst x.
  assert (existsb (String.eqb token) classes = true)
    by (apply existsb_exists; exists token; split; [exact Hx|apply String.eqb_refl]).
  congruence.
Qed.

Lemma class_remove_absent (token : string) (classes : list string) :
  (forall c, In c classes -> c <> token) -> Theme.class_remove token classes = classes.
Proof.
  intros H. unfold Theme.class_remove.
  induction classes as [|x xs IH]; [reflexivity|]. cbn.
  destruct (String.eqb_spec x token) as [->|Hx]; cbn.
  - exfalso. exact (H token (or_introl eq_refl) eq_refl).
  - f_equal. apply IH. intros c Hc. apply H. right; exact Hc.
Qed.

Lemma class_remove_snoc (token x : string) (classes : list string) :
  Theme.class_remove token (classes ++ [x])
  = Theme.class_remove token classes ++ (if String.eqb x token then [] else [x]).
Proof.
  unfold Theme.class_remove. rewrite List.filter_app. cbn.
  destruct (String.eqb x token); reflexivity.
Qed.

Lemma applyToDOM_idempotent (effective : string) (classes : list string) :
  Theme.applyToDOM effective (Theme.applyToDOM effective classes)
  = Theme.applyToDOM effective classes.
Proof.
  unfold Theme.applyToDOM.
  set (base := Theme.class_remove "dark" (Theme.class_remove "light" classes)).
  assert (Hbase : forall c, In c base -> c <> "light" /\ c <> "dark").
  { intros c Hc. subst base. apply class_remove_In in Hc. destruct Hc as [Hc Hd].
    apply class_remove_In in Hc. tauto. }
  assert (Hl : Theme.class_remove "light" base = base)
    by (apply class_remove_absent; intros c Hc; apply Hbase, Hc).
  assert (Hd : Theme.class_remove "dark" base = base)
    by (apply class_remove_absent; intros c Hc; apply Hbase, Hc).
  unfold Theme.class_add at 2.
  destruct (existsb (String.eqb effective) base) eqn:E.
  - rewrite Hl, Hd. unfold Theme.class_add. rewrite E. reflexivity.
  - rewrite class_remove_snoc, Hl.
    destruct (String.eqb_spec effective "light") as [->|Hne1].
    + rewrite app_nil_r, Hd. unfold Theme.class_add. rewrite E. reflexivity.
    + rewrite class_remove_snoc, Hd.
      destruct (String.eqb_spec effective "dark") as [->|Hne2].
      * rewrite app_nil_r. unfold Theme.class_add. rewrite E. reflexivity.
      * unfold Theme.class_add. rewrite existsb_app, E. cbn.
        rewrite String.eqb_refl. reflexivity.
Qed.

(** X11: [applyToDOM] leaves the root with the effective theme as a
    class and with neither [light] nor [dark] unless it is the effective
    one; every other class of the root is kept, no class is duplicated,
    and applying it again changes nothing. *)
Theorem X11_applyToDOM_sets_exactly_the_theme (effective : string) (classes : list string) :
  In effective (Theme.applyToDOM effective classes)
  /\ (forall c, c <> effective ->
        (In c (Theme.applyToDOM effective classes)
         <-> In c classes /\ c <> "light" /\ c <> "dark"))
  /\ (List.NoDup classes -> List.NoDup (Theme.applyToDOM effective classes))
  /\ Theme.applyToDOM effective (Theme.applyToDOM effective classes)
     = Theme.applyToDOM effective classes.
Proof.
  split; [apply applyToDOM_In; left; reflexivity|].
  split; [intros c Hc; rewrite applyToDOM_In; intuition congruence|].
  split; [intros H; apply class_add_NoDup, class_remove_NoDup, class_remove_NoDup, H|].
  apply applyToDOM_idempotent.
Qed.

Lemma X11_applyToDOM_sets_exactly_the_theme_witness :
  Theme.applyToDOM "dark" ["app"; "light"] = ["app"; "dark"]
  /\ List.NoDup (Theme.applyToDOM "dark" ["app"; "light"]).
Proof.
  split; [reflexivity|].
  apply (X11_applyToDOM_sets_exactly_the_theme "dark" ["app"; "light"]).
  repeat constructor; cbn; intuition discriminate.
Defined.

Lemma memo_ok_mount (prefersDark : bool) (stored : option string) (classes : list string) :
  Theme.memo_ok (Theme.mount prefersDark stored classes).
Proof.
  unfold Theme.memo_ok, Theme.mount, Theme.resolveTheme. cbn.
  destruct (String.eqb_spec (Theme.initialTheme stored) "system") as [E|E].
  - split; [congruence|]. intros _. destruct prefersDark; auto.
  - split; [reflexivity|]. congruence.
Qed.

Lemma memo_ok_setTheme (prefersDark : bool) (newTheme : string) (st : Theme.State) :
  Theme.memo_ok st -> Theme.memo_ok (Theme.setTheme prefersDark newTheme st).
Proof.
  intros [H1 H2]. unfold Theme.memo_ok, Theme.setTheme, Theme.resolveTheme. cbn.
  destruct (String.eqb_spec newTheme (Theme.theme st)) as [->|Hne]; [auto|].
  destruct (String.eqb_spec newTheme "system") as [E|E].
  - split; [congruence|]. intros _. destruct prefersDark; auto.
  - split; [reflexivity|]. congruence.
Qed.

Lemma memo_ok_run (acts : list (bool * Theme.Action)) :
  forall st, Theme.memo_ok st -> Theme.memo_ok (Theme.run acts st).
Proof.
  induction acts as [|[pd [t|]] rest IH]; intros st H; cbn; auto.
  - apply IH, memo_ok_setTheme, H.
  - apply IH. unfold Theme.toggleTheme. apply memo_ok_setTheme, H.
Qed.

(** X12: [toggleTheme] switches to the explicit theme opposite to the
    one in effect: from dark to light, from anything else to dark. The
    new theme is stored in localStorage, the root carries its class and
    no longer the old one, and a second toggle brings a dark or light
    theme back. *)
Theorem X12_toggle_flips_the_theme (pd pd' : bool) (st : Theme.State) :
  Theme.memo_ok st ->
  let st1 := Theme.toggleTheme pd st in
  Theme.theme st1 = Theme.resolvedTheme st1
  /\ Theme.stored st1 = Some (Theme.theme st1)
  /\ (Theme.resolvedTheme st = "dark" -> Theme.resolvedTheme st1 = "light")
  /\ (Theme.resolvedTheme st <> "dark" -> Theme.resolvedTheme st1 = "dark")
  /\ In (Theme.resolvedTheme st1) (Theme.classes st1)
  /\ (Theme.resolvedTheme st = "dark" \/ Theme.resolvedTheme st = "light" ->
      ~ In (Theme.resolvedTheme st) (Theme.classes st1)
      /\ Theme.resolvedTheme (Theme.toggleTheme pd' st1) = Theme.resolvedTheme st).
Proof.
  intros Hok. cbv zeta.
  assert (Hflip : forall p s, Theme.memo_ok s ->
            Theme.resolvedTheme (Theme.toggleTheme p s)
            = (if String.eqb (Theme.resolvedTheme s) "dark" then "light" else "dark")
            /\ Theme.theme (Theme.toggleTheme p s)
               = (if String.eqb (Theme.resolvedTheme s) "dark" then "light" else "dark")).
  { intros p s [H1 H2]. unfold Theme.toggleTheme, Theme.setTheme. cbn.
    split; [|reflexivity].
    destruct (String.eqb_spec (Theme.resolvedTheme s) "dark") as [Hd|Hd].
    - destruct (String.eqb_spec "light" (Theme.theme s)) as [E|E]; [|reflexivity].
      rewrite H1 in Hd by (rewrite <- E; discriminate). congruence.
    - destruct (String.eqb_spec "dark" (Theme.theme s)) as [E|E]; [|reflexivity].
      rewrite H1 in Hd by (rewrite <- E; discriminate). congruence. }
  destruct (Hflip pd st Hok) as (Hr & Ht).
  assert (Hok1 : Theme.memo_ok (Theme.toggleTheme pd st))
    by (unfold Theme.toggleTheme; apply memo_ok_setTheme, Hok).
  destruct (Hflip pd' _ Hok1) as (Hr2 & _).
  assert (Hcls : Theme.classes (Theme.toggleTheme pd st)
                 = Theme.applyToDOM (Theme.resolvedTheme (Theme.toggleTheme pd st))
                     (Theme.classes st)) by reflexivity.
  split; [congruence|]. split; [rewrite Ht; reflexivity|].
  split; [intros E; rewrite Hr, E; reflexivity|].
  split.
  { intros E. rewrite Hr. destruct (String.eqb_spec (Theme.resolvedTheme st) "dark");
      [contradiction|reflexivity]. }
  split; [rewrite Hcls; apply applyToDOM_In; left; reflexivity|].
  intros Hdl. split.
  - rewrite Hcls, applyToDOM_In, Hr.
    destruct Hdl as [E|E]; rewrite E; cbn; intuition congruence.
  - rewrite Hr2, Hr. destruct Hdl as [E|E]; rewrite E; reflexivity.
Qed.

Lemma X12_toggle_flips_the_theme_witness :
  Theme.resolvedTheme (Theme.toggleTheme false (Theme.mount true (Some "system") ["app"]))
  = "light".
Proof.
  apply (X12_toggle_flips_the_theme false false (Theme.mount true (Some "system") ["app"])
           (memo_ok_mount true (Some "system") ["app"])).
  reflexivity.
Defined.

Lemma run_stored (acts : list (bool * Theme.Action)) :
  forall st,
    Theme.initialTheme (Theme.stored st) = Theme.theme st ->
    Forall (fun a => snd a <> Theme.SetTheme "") acts ->
    Theme.initialTheme (Theme.stored (Theme.run acts st)) = Theme.theme (Theme.run acts st).
Proof.
  induction acts as [|[pd [t|]] rest IH]; intros st Hst Hne; cbn; auto.
  - apply Forall_cons_1 in Hne. destruct Hne as [Ht Hrest]. cbn in Ht.
    apply IH; [|exact Hrest]. cbn.
    destruct (String.eqb_spec t "") as [->|_]; [congruence|reflexivity].
  - apply Forall_cons_1 in Hne. destruct Hne as [_ Hrest].
    apply IH; [|exact Hrest]. unfold Theme.toggleTheme. cbn.
    destruct (String.eqb (Theme.resolvedTheme st) "dark"); reflexivity.
Qed.

(** X13: the theme survives a reload. After any sequence of [setTheme]
    (with a non-empty theme) and [toggleTheme] calls, a hook mounted
    afresh on the same localStorage starts with the theme last in
    effect; with nothing stored, or an empty string, it starts dark. *)
Theorem X13_theme_survives_reload
  (pd pd' : bool) (stored0 : option string) (classes0 classes1 : list string)
  (acts : list (bool * Theme.Action)) :
  Forall (fun a => snd a <> Theme.SetTheme "") acts ->
  let st := Theme.run acts (Theme.mount pd stored0 classes0) in
  Theme.theme (Theme.mount pd' (Theme.stored st) classes1) = Theme.theme st
  /\ Theme.theme (Theme.mount pd' None classes1) = "dark"
  /\ Theme.theme (Theme.mount pd' (Some "") classes1) = "dark".
Proof.
  intros Hne. cbv zeta. split; [|split; reflexivity].
  change (Theme.initialTheme
            (Theme.stored (Theme.run acts (Theme.mount pd stored0 classes0)))
          = Theme.theme (Theme.run acts (Theme.mount pd stored0 classes0))).
  apply run_stored; [|exact Hne].
  cbn. destruct stored0 as [s|]; [|reflexivity]. cbn.
  destruct (String.eqb_spec s "") as [->|Hs]; [reflexivity|].
  cbn. destruct (String.eqb_spec s "") as [E|_]; [contradiction|reflexivity].
Qed.

Lemma X13_theme_survives_reload_witness :
  Theme.theme
    (Theme.mount true
       (Theme.stored (Theme.run [(false, Theme.SetTheme "system"); (true, Theme.ToggleTheme)]
                        (Theme.mount false None [])))
       [])
  = "dark".
Proof.
  refine (eq_trans
            (proj1 (X13_theme_survives_reload false true None [] []
                      [(false, Theme.SetTheme "system"); (true, Theme.ToggleTheme)] _))
            eq_refl).
  repeat constructor; cbn; discriminate.
Defined.

(** ** The CDP panel *)

Lemma cdp_step_consistent (sid : string) (st st' : CDP.State) (e : CDP.Event)
  (outs : list CDP.Output) :
  CDP.consistent sid st -> CDP.step sid st e = Some (st', outs) ->
  CDP.consistent sid st'
  /\ CDP.tunnels_held [e] (if CDP.cdpActive st then 1 else 0)
     = (if CDP.cdpActive st' then 1 else 0).
Proof.
  intros (Ha & Hu & Hs & Hp) H.
  destruct st as [rp lp act tid urls pend].
  unfold CDP.consistent in *. cbn in *.
  destruct e; cbn in H.
  - unfold CDP.isPending in H. cbn in H.
    destruct pend; [discriminate|].
    destruct act.
    + destruct tid as [t|].
      * injection H as <- <-. cbn. repeat split; try tauto; try discriminate;
          intros; try congruence.
      * injection H as <- <-. cbn. repeat split; try tauto; try discriminate.
    + injection H as <- <-. cbn. repeat split; try tauto; try discriminate;
        intros; try congruence.
  - unfold CDP.isPending in H. cbn in H.
    destruct act; [discriminate|]. destruct pend; [discriminate|].
    injection H as <- <-. cbn. repeat split; try tauto; try discriminate.
  - unfold CDP.isPending in H. cbn in H.
    destruct act; [discriminate|]. destruct pend; [discriminate|].
    injection H as <- <-. cbn. repeat split; try tauto; try discriminate.
  - destruct pend as [[s r l|s t]|]; try discriminate.
    injection H as <- <-. cbn.
    destruct (Hs s r l eq_refl) as (-> & _).
    repeat split; try tauto; try discriminate.
  - destruct pend as [[s r l|s t]|]; try discriminate.
    injection H as <- <-. cbn.
    destruct (Hp s t eq_refl) as (_ & Ht).
    assert (act = true) by (apply Ha; congruence). subst act.
    repeat split; try tauto; try discriminate; intros; try congruence.
  - destruct pend as [[s r l|s t]|]; try discriminate;
      injection H as <- <-; cbn;
      repeat split; try tauto; try discriminate; destruct act; reflexivity.
Qed.

Lemma tunnels_held_cons (e : CDP.Event) (rest : list CDP.Event) (held : Z) :
  CDP.tunnels_held (e :: rest) held = CDP.tunnels_held rest (CDP.tunnels_held [e] held).
Proof. destruct e; reflexivity. Qed.

Lemma cdp_step_guard (sid : string) (st st' : CDP.State) (e : CDP.Event)
  (outs : list CDP.Output) :
  CDP.consistent sid st -> CDP.step sid st e = Some (st', outs) ->
  ~ In (CDP.ToastStopFailed CDP.NoActiveTunnel) outs.
Proof.
  intros (Ha & _) H.
  destruct st as [rp lp act tid urls pend]. cbn in *.
  destruct e; cbn in H.
  - unfold CDP.isPending in H. cbn in H.
    destruct pend; [discriminate|].
    destruct act.
    + destruct tid as [t|].
      * injection H as <- <-. cbn. intros [E|[]]; discriminate E.
      * exfalso. apply (proj1 Ha eq_refl). reflexivity.
    + injection H as <- <-. cbn. intros [E|[]]; discriminate E.
  - destruct (act || CDP.isPending _); [discriminate|].
    injection H as <- <-. intros [].
  - destruct (act || CDP.isPending _); [discriminate|].
    injection H as <- <-. intros [].
  - destruct pend as [[s r l|s t]|]; try discriminate.
    injection H as <- <-. intros [E|[]]; discriminate E.
  - destruct pend as [[s r l|s t]|]; try discriminate.
    injection H as <- <-. intros [E|[]]; discriminate E.
  - destruct pend as [[s r l|s t]|]; try discriminate;
      injection H as <- <-; intros [E|[]]; discriminate E.
Qed.

Lemma cdp_run_consistent (sid : string) (evs : list CDP.Event) :
  forall st st' outs,
    CDP.consistent sid st -> CDP.run sid st evs = Some (st', outs) ->
    CDP.consistent sid st'
    /\ CDP.tunnels_held evs (if CDP.cdpActive st then 1 else 0)
       = (if CDP.cdpActive st' then 1 else 0)
    /\ ~ In (CDP.ToastStopFailed CDP.NoActiveTunnel) outs.
Proof.
  induction evs as [|e rest IH]; intros st st' outs Hc Hrun.
  - cbn in Hrun. injection Hrun as <- <-. cbn. auto.
  - cbn [CDP.run] in Hrun.
    destruct (CDP.step sid st e) as [[st1 o1]|] eqn:Hs; [|discriminate].
    destruct (CDP.run sid st1 rest) as [[st2 o2]|] eqn:Hr; [|discriminate].
    injection Hrun as <- <-.
    destruct (cdp_step_consistent sid st st1 e o1 Hc Hs) as (Hc1 & Hh1).
    pose proof (cdp_step_guard sid st st1 e o1 Hc Hs) as Hg1.
    destruct (IH st1 st2 o2 Hc1 Hr) as (Hc2 & Hh2 & Hg2).
    split; [exact Hc2|]. split.
    + rewrite tunnels_held_cons, Hh1. exact Hh2.
    + rewrite in_app_iff. tauto.
Qed.

Lemma cdp_initial_consistent (sid : string) : CDP.consistent sid CDP.initial.
Proof.
  unfold CDP.consistent. cbn.
  repeat split; intros; try discriminate; try congruence.
Qed.

(** X14: whatever the user clicks and however the requests end, the
    panel's three cells move together (active exactly when it holds a
    tunnel id, and exactly when it holds URLs), the tunnels the server
    opened for it minus those it closed is 1 when the panel is active
    and 0 otherwise, so it never holds two, and the stop button never
    runs into the [No active tunnel] error. *)
Theorem X14_panel_holds_at_most_one_tunnel
  (sid : string) (evs : list CDP.Event) (st : CDP.State) (outs : list CDP.Output) :
  CDP.run sid CDP.initial evs = Some (st, outs) ->
  (CDP.cdpActive st = true <-> CDP.tunnelId st <> None)
  /\ (CDP.cdpActive st = true <-> CDP.cdpUrls st <> None)
  /\ CDP.tunnels_held evs 0 = (if CDP.cdpActive st then 1 else 0)
  /\ ~ In (CDP.ToastStopFailed CDP.NoActiveTunnel) outs.
Proof.
  intros Hrun.
  destruct (cdp_run_consistent sid evs CDP.initial st outs
              (cdp_initial_consistent sid) Hrun) as ((Ha & Hu & _) & Hh & Hg).
  auto.
Qed.

Lemma X14_panel_holds_at_most_one_tunnel_witness :
  exists st outs,
    CDP.run "abc" CDP.initial
      [CDP.Click; CDP.StartOk (CDP.mkResponse 7 None (Some "d") None None);
       CDP.Click; CDP.Failed "busy"; CDP.Click; CDP.StopOk]
    = Some (st, outs)
    /\ (CDP.cdpActive st = true <-> CDP.tunnelId st <> None).
Proof.
  eexists; eexists. split; [vm_compute; reflexivity|].
  refine (proj1 (X14_panel_holds_at_most_one_tunnel "abc"
                   [CDP.Click; CDP.StartOk (CDP.mkResponse 7 None (Some "d") None None);
                    CDP.Click; CDP.Failed "busy"; CDP.Click; CDP.StopOk] _ _ _)).
  vm_compute. reflexivity.
Defined.

Lemma last_start_app (o1 o2 : list CDP.Output) (acc : option (Z * Z)) :
  CDP.last_start (o1 ++ o2) acc = CDP.last_start o2 (CDP.last_start o1 acc).
Proof.
  revert acc. induction o1 as [|o rest IH]; intros acc; [reflexivity|].
  destruct o as [[s r l|s t]| | | |]; cbn; apply IH.
Qed.

Lemma cdp_step_ports (sid : string) (st st' : CDP.State) (e : CDP.Event)
  (outs : list CDP.Output) (requested : option (Z * Z)) :
  CDP.ports_as_requested st requested -> CDP.step sid st e = Some (st', outs) ->
  CDP.ports_as_requested st' (CDP.last_start outs requested).
Proof.
  unfold CDP.ports_as_requested. intros Hinv H.
  destruct st as [rp lp act tid urls pend]. cbn in *.
  destruct e; cbn in H.
  - unfold CDP.isPending in H. cbn in H.
    destruct pend; [discriminate|].
    destruct act.
    + destruct tid as [t|]; injection H as <- <-; cbn; intros _; apply Hinv; auto.
    + injection H as <- <-. cbn. intros _. reflexivity.
  - destruct act; [discriminate|]. unfold CDP.isPending in H. cbn in H.
    destruct pend; [discriminate|]. injection H as <- <-. cbn.
    intros [E|(s & r & l & E)]; discriminate E.
  - destruct act; [discriminate|]. unfold CDP.isPending in H. cbn in H.
    destruct pend; [discriminate|]. injection H as <- <-. cbn.
    intros [E|(s & r & l & E)]; discriminate E.
  - destruct pend as [[s r l|s t]|]; try discriminate.
    injection H as <- <-. cbn. intros _. apply Hinv. right. eauto.
  - destruct pend as [[s r l|s t]|]; try discriminate.
    injection H as <- <-. cbn. intros [E|(s' & r & l & E)]; discriminate E.
  - destruct pend as [[s r l|s t]|]; try discriminate;
      injection H as <- <-; cbn;
      (intros [E|(s' & r' & l' & E)]; [apply Hinv; auto|discriminate E]).
Qed.

Lemma cdp_run_ports (sid : string) (evs : list CDP.Event) :
  forall st st' outs requested,
    CDP.ports_as_requested st requested -> CDP.run sid st evs = Some (st', outs) ->
    CDP.ports_as_requested st' (CDP.last_start outs requested).
Proof.
  induction evs as [|e rest IH]; intros st st' outs requested Hinv Hrun.
  - cbn in Hrun. injection Hrun as <- <-. exact Hinv.
  - cbn [CDP.run] in Hrun.
    destruct (CDP.step sid st e) as [[st1 o1]|] eqn:Hs; [|discriminate].
    destruct (CDP.run sid st1 rest) as [[st2 o2]|] eqn:Hr; [|discriminate].
    injection Hrun as <- <-. rewrite last_start_app.
    eapply IH; [|exact Hr]. eapply cdp_step_ports; eauto.
Qed.

(** X15: while the panel is active, or a start request is pending, the
    ports it shows are the ports of the last start request it sent: the
    inputs are disabled from the click until the tunnel is stopped or
    the start fails. *)
Theorem X15_ports_are_those_requested
  (sid : string) (evs : list CDP.Event) (st : CDP.State) (outs : list CDP.Output) :
  CDP.run sid CDP.initial evs = Some (st, outs) ->
  CDP.cdpActive st = true \/ (exists s r l, CDP.pending st = Some (CDP.StartCDP s r l)) ->
  CDP.last_start outs None = Some (CDP.remotePort st, CDP.localPort st).
Proof.
  intros Hrun. apply (cdp_run_ports sid evs CDP.initial st outs None); [|exact Hrun].
  unfold CDP.ports_as_requested. cbn.
  intros [E|(s & r & l & E)]; discriminate E.
Qed.

Lemma X15_ports_are_those_requested_witness :
  CDP.last_start [CDP.Sent (CDP.StartCDP "abc" 9333 9222); CDP.ToastStarted 9333 9222] None
  = Some (9333, 9222).
Proof.
  refine (X15_ports_are_those_requested "abc"
            [CDP.SetRemotePort 9333; CDP.Click;
             CDP.StartOk (CDP.mkResponse 7 None None None None)]
            CDP.sample_active _ eq_refl _).
  left; reflexivity.
Defined.

(** ** The hook without the effect *)

Lemma closing_sockets_origin (st : State) :
  Forall (fun s => origin s = ByConnect) (sockets st) ->
  Forall (fun s => origin s = ByConnect) (closing_sockets st).
Proof.
  intros HF. apply Forall_lookup_2. intros k s' Hk.
  destruct (closing_sockets_lookup_inv st k s' Hk) as (s & Hs & _ & Ho).
  rewrite Ho. exact (Forall_lookup_1 _ _ _ _ HF Hs).
Qed.

Lemma manual_only_step (opts : Options) (st st' : State) (e : Event) (eff : list Effect) :
  autoConnect opts = false -> manual_only st ->
  deliver opts st e = Some (st', eff) ->
  manual_only st' /\ Forall (fun x => is_dispatch x = false) eff.
Proof.
  intros Hauto (Ht & Ho & Hm) H.
  assert (Hpair : forall p : State * list Effect,
            Some p = Some (st', eff) -> st' = fst p /\ eff = snd p)
    by (intros p Hp; injection Hp as ->; auto).
  unfold manual_only.
  destruct e; cbn [deliver] in H.
  - destruct (sockets st !! i) as [s|] eqn:Hs; [|discriminate].
    destruct (readyState s); try discriminate.
    destruct (Hpair _ H) as [-> ->].
    rewrite (set_readyState_lookup _ _ _ _ Hs).
    pose proof (Forall_lookup_1 _ _ _ _ Ho Hs) as Hos. cbn in Hos.
    unfold onopen. rewrite Hos. cbn.
    repeat split; auto.
    apply Forall_insert; [exact Ho|reflexivity].
  - destruct (sockets st !! i) as [s|] eqn:Hs; [|discriminate].
    pose proof (Forall_lookup_1 _ _ _ _ Ho Hs) as Hos. cbn in Hos.
    rewrite Hos in H. destruct (readyState s); try discriminate.
    injection H as <- <-. auto.
  - destruct (sockets st !! i) as [s|]; [|discriminate].
    destruct (readyState s); try discriminate; injection H as <- <-;
      repeat split; auto; repeat constructor.
  - destruct (sockets st !! i) as [s|] eqn:Hs; [|discriminate].
    pose proof (Forall_lookup_1 _ _ _ _ Ho Hs) as Hos. cbn in Hos.
    assert (Hp : st' = fst (onclose opts (origin s) code (set_readyState i CLOSED st))
                 /\ eff = snd (onclose opts (origin s) code (set_readyState i CLOSED st)))
      by (destruct (readyState s); try discriminate; apply Hpair, H).
    destruct Hp as [-> ->].
    rewrite (set_readyState_lookup _ _ _ _ Hs), Hos. cbn.
    repeat split; auto.
    apply Forall_insert; [exact Ho|reflexivity].
  - rewrite Ht in H. discriminate.
  - rewrite Hauto in H. cbn in H. injection H as <- <-. auto.
  - injection H as <- <-. auto.
  - destruct (Hpair _ H) as [-> Heff]. rewrite connect_state.
    assert (Hne : Forall (fun x => is_dispatch x = false) eff).
    { rewrite Heff. unfold connect, andThen, update, close_current, ws_close, new_socket.
      destruct (wsRef st) as [w|]; [destruct (sockets st !! w)|]; cbn;
        destruct (getToken (authData st)); cbn; repeat constructor. }
    destruct (getToken (authData st)); cbn; repeat split; auto.
    + apply Forall_app_2; [apply closing_sockets_origin, Ho|repeat constructor].
    + apply closing_sockets_origin, Ho.
  - destruct (Hpair _ H) as [-> Heff]. rewrite disconnect_state. cbn.
    assert (Hne : Forall (fun x => is_dispatch x = false) eff).
    { rewrite Heff. unfold disconnect, andThen, update, clear_reconnect_timeout,
        close_current, ws_close.
      destruct (reconnectTimeoutRef st); cbn;
        (destruct (wsRef st) as [w|]; [destruct (sockets st !! w)|]; cbn;
         repeat constructor). }
    repeat split; auto.
    + unfold cleared_timers, clearTimeout. rewrite Ht.
      destruct (reconnectTimeoutRef st); reflexivity.
    + apply closing_sockets_origin, Ho.
  - injection H as H. unfold send in H.
    destruct (wsRef st); [destruct (is_open st)|]; injection H as <- <-;
      repeat split; auto; repeat constructor.
  - rewrite Hauto in H. discriminate.
  - destruct (sockets st !! i) as [s|] eqn:Hs; [|discriminate].
    pose proof (Forall_lookup_1 _ _ _ _ Ho Hs) as Hos. cbn in Hos.
    destruct (readyState s); try discriminate.
    destruct (Hpair _ H) as [-> ->].
    rewrite (set_readyState_lookup _ _ _ _ Hs). cbn.
    repeat split; auto.
    apply Forall_insert; [exact Ho|exact Hos].
Qed.

(** X16: used with [autoConnect: false] the hook never handles a
    frame and never reconnects: every socket is one made by
    [connect()], which has no message handler and no retry, so in every
    reachable state [lastMessage] is still null and no timer was ever
    set, and no event invalidates a query, raises a toast or stores a
    notification. *)
Theorem X16_manual_hook_is_deaf
  (opts : Options) (auth : option Text) (evs : list Event) (st : State) (eff : list Effect) :
  autoConnect opts = false ->
  run opts (fst (mount opts auth)) evs = Some (st, eff) ->
  manual_only st /\ Forall (fun x => is_dispatch x = false) eff.
Proof.
  intros Hauto.
  assert (Hinit : manual_only (fst (mount opts auth))).
  { unfold mount. rewrite Hauto. cbn. repeat split. constructor. }
  revert Hinit. generalize (fst (mount opts auth)) as st0.
  revert st eff. induction evs as [|e rest IH]; intros st eff st0 Hinv Hrun.
  - cbn in Hrun. injection Hrun as <- <-. split; [exact Hinv|constructor].
  - cbn [run] in Hrun.
    destruct (deliver opts st0 e) as [[st1 e1]|] eqn:Hd; [|discriminate].
    destruct (run opts st1 rest) as [[st2 e2]|] eqn:Hr; [|discriminate].
    injection Hrun as <- <-.
    destruct (manual_only_step opts st0 st1 e e1 Hauto Hinv Hd) as (Hinv1 & He1).
    destruct (IH st2 e2 st1 Hinv1 Hr) as (Hinv2 & He2).
    split; [exact Hinv2|]. apply Forall_app_2; assumption.
Qed.

Lemma X16_manual_hook_is_deaf_witness :
  exists st eff,
    run manualOptions (fst (mount manualOptions sample_token))
      [Connect; SocketOpen 0%nat;
       SocketMessage 0 (WellFormed (JObj [("event", JStr "session.new")]));
       SocketClose 0 1006]
    = Some (st, eff)
    /\ lastMessage st = JNull /\ timers st = [].
Proof.
  eexists; eexists. split; [vm_compute; reflexivity|].
  destruct (X16_manual_hook_is_deaf manualOptions sample_token
              [Connect; SocketOpen 0%nat;
               SocketMessage 0 (WellFormed (JObj [("event", JStr "session.new")]));
               SocketClose 0 1006] _ _ eq_refl ltac:(vm_compute; reflexivity))
    as ((Ht & _ & Hm) & _).
  split; assumption.
Defined.

(** ** Consecutive failures, for any budget *)

Lemma insert_last {A : Type} (l : list A) (y z : A) :
  <[length l := z]> (l ++ [y]) = l ++ [z].
Proof. induction l as [|x xs IH]; cbn; [reflexivity|]. f_equal. exact IH. Qed.

Lemma insert_repeat_last {A : Type} (x y z : A) (k : nat) :
  <[k := z]> (repeat x k ++ [y]) = repeat x k ++ [z].
Proof.
  pose proof (insert_last (repeat x k) y z) as H.
  rewrite repeat_length in H. exact H.
Qed.

Lemma lookup_repeat_last {A : Type} (x y : A) (k : nat) :
  (repeat x k ++ [y]) !! k = Some y.
Proof. apply list_lookup_middle. rewrite repeat_length. reflexivity. Qed.

Lemma repeat_snoc {A : Type} (x : A) (n : nat) : repeat x n ++ [x] = repeat x (S n).
Proof. induction n as [|n IH]; cbn; [reflexivity|]. f_equal. exact IH. Qed.

Lemma mount_retrying (opts : Options) (auth : option Text) (tok : json) :
  autoConnect opts = true -> getToken auth = Some tok ->
  fst (mount opts auth) = retrying opts auth tok 0.
Proof.
  intros Ha Ht. unfold mount, openConnection, initial. rewrite Ha. cbn.
  rewrite Ht. reflexivity.
Qed.

(** One failure of the attempt in flight and the retry that follows. *)
Lemma retrying_cycle (opts : Options) (auth : option Text) (tok : json) (k : nat) :
  getToken auth = Some tok -> Z.of_nat k < reconnectAttempts opts ->
  exists eff,
    run opts (retrying opts auth tok k) [SocketClose k 1006; TimerFire k]
    = Some (retrying opts auth tok (S k), eff).
Proof.
  intros Ht Hlt.
  set (closed := mkSocket CLOSED ByEffect tok).
  set (fired := mkTimer (reconnectInterval opts) Fired Retry).
  assert (Hlook : sockets (retrying opts auth tok k) !! k
                  = Some (mkSocket CONNECTING ByEffect tok)).
  { cbn. apply list_lookup_middle. rewrite repeat_length. reflexivity. }
  assert (Hd1 : deliver opts (retrying opts auth tok k) (SocketClose k 1006)
                = Some (mkState None (Z.of_nat k + 1) (Some k) false JNull false
                          (repeat closed k ++ [closed])
                          (repeat fired k
                           ++ [mkTimer (reconnectInterval opts) Pending Retry])
                          auth,
                        [ConsoleLog "WebSocket closed:";
                         ConsoleLog "Attempting reconnection";
                         SetTimeout k (reconnectInterval opts)])).
  { rewrite (deliver_SocketClose opts _ k _ 1006 Hlook) by discriminate.
    rewrite (set_readyState_lookup _ _ _ _ Hlook).
    change (origin (mkSocket CONNECTING ByEffect tok)) with ByEffect.
    rewrite onclose_retry by (cbn; auto; lia).
    cbn [timers sockets set_sockets retrying reconnectCountRef lastMessage disposed
         authData urlToken].
    rewrite repeat_length.
    rewrite insert_repeat_last. reflexivity. }
  cbn [run]. rewrite Hd1.
  assert (Hfire : deliver opts
                    (mkState None (Z.of_nat k + 1) (Some k) false JNull false
                       (repeat closed k ++ [closed])
                       (repeat fired k ++ [mkTimer (reconnectInterval opts) Pending Retry])
                       auth) (TimerFire k)
                  = Some (retrying opts auth tok (S k),
                          [NewWebSocket (S k) tok])).
  { cbn [deliver timers].
    rewrite lookup_repeat_last.
    cbn. unfold mark_fired. cbn [timers].
    rewrite lookup_repeat_last.
    unfold openConnection. cbn. rewrite Ht. unfold new_socket. cbn.
    rewrite insert_repeat_last.
    rewrite length_app, repeat_length. cbn.
    rewrite !repeat_snoc.
    replace (k + 1)%nat with (S k) by lia.
    unfold retrying. rewrite Nat2Z.inj_succ. unfold Z.succ. reflexivity. }
  rewrite Hfire. eexists. reflexivity.
Qed.

Lemma retrying_failures (opts : Options) (auth : option Text) (tok : json) (n : nat) :
  forall k,
    getToken auth = Some tok -> Z.of_nat (k + n) <= reconnectAttempts opts ->
    exists eff,
      run opts (retrying opts auth tok k) (failures_from k n)
      = Some (retrying opts auth tok (k + n), eff).
Proof.
  induction n as [|n IH]; intros k Ht Hle.
  - rewrite Nat.add_0_r. eexists. reflexivity.
  - destruct (retrying_cycle opts auth tok k Ht ltac:(lia)) as (e1 & H1).
    destruct (IH (S k) Ht ltac:(replace (S k + n)%nat with (k + S n)%nat by lia; exact Hle))
      as (e2 & H2).
    change (failures_from k (S n))
      with ([SocketClose k 1006; TimerFire k] ++ failures_from (S k) n).
    rewrite run_app, H1, H2.
    replace (S k + n)%nat with (k + S n)%nat by lia.
    eexists. reflexivity.
Qed.

Lemma retrying_gives_up (opts : Options) (auth : option Text) (tok : json) (m : nat) :
  reconnectAttempts opts = Z.of_nat m ->
  exists eff,
    deliver opts (retrying opts auth tok m) (SocketClose m 1006)
    = Some (given_up opts auth tok m, eff).
Proof.
  intros Hm.
  set (closed := mkSocket CLOSED ByEffect tok).
  assert (Hlook : sockets (retrying opts auth tok m) !! m
                  = Some (mkSocket CONNECTING ByEffect tok)).
  { cbn. apply list_lookup_middle. rewrite repeat_length. reflexivity. }
  rewrite (deliver_SocketClose opts _ m _ 1006 Hlook) by discriminate.
  rewrite (set_readyState_lookup _ _ _ _ Hlook).
  rewrite onclose_no_retry by (right; left; cbn; lia).
  eexists. f_equal. f_equal. cbn.
  rewrite insert_repeat_last.
  change (mkSocket CLOSED ByEffect tok :: repeat (mkSocket CLOSED ByEffect tok) m)
    with (repeat (mkSocket CLOSED ByEffect tok) (S m)).
  rewrite repeat_snoc. reflexivity.
Qed.

Lemma retry_delays_fired (opts : Options) (auth : option Text) (tok : json) (m : nat) :
  retry_delays (given_up opts auth tok m) = repeat (reconnectInterval opts) m.
Proof.
  unfold retry_delays. cbn [timers given_up].
  induction m as [|m IH]; cbn; [reflexivity|]. f_equal. exact IH.
Qed.

(** X17: for any budget [m], if the hook mounts with a token and the
    first attempt and every retry fail, it makes exactly [m] retries,
    each [reconnectInterval] after the failure before it, and failure
    [m+1] leaves it exhausted: disconnected, counter at the maximum, no
    socket alive and no timer pending. *)
Theorem X17_consecutive_failures_exhaust_the_budget
  (opts : Options) (auth : option Text) (tok : json) (m : nat) :
  autoConnect opts = true -> getToken auth = Some tok ->
  reconnectAttempts opts = Z.of_nat m ->
  exists st eff,
    run opts (fst (mount opts auth)) (failures_from 0 m ++ [SocketClose m 1006])
    = Some (st, eff)
    /\ exhausted opts st
    /\ retry_delays st = repeat (reconnectInterval opts) m
    /\ length (sockets st) = S m
    /\ wsRef st = None /\ isConnected st = false.
Proof.
  intros Ha Ht Hm.
  destruct (retrying_failures opts auth tok m 0%nat Ht ltac:(cbn; lia)) as (e1 & H1).
  destruct (retrying_gives_up opts auth tok m Hm) as (e2 & H2).
  exists (given_up opts auth tok m), (e1 ++ (e2 ++ [])).
  split.
  { rewrite run_app, (mount_retrying opts auth tok Ha Ht), H1. cbn [run Nat.add].
    rewrite H2. reflexivity. }
  split.
  { unfold exhausted. cbn. split; [congruence|]. split.
    - constructor; [reflexivity|]. apply List.Forall_forall. intros s Hs.
      apply repeat_spec in Hs. subst s. reflexivity.
    - apply List.Forall_forall. intros tm Htm.
      apply repeat_spec in Htm. subst tm. cbn. discriminate. }
  split; [apply retry_delays_fired|].
  split; [cbn; rewrite repeat_length; reflexivity|].
  split; reflexivity.
Qed.

Lemma X17_consecutive_failures_exhaust_the_budget_witness :
  exists st eff,
    run defaultOptions mounted (failures_from 0 5 ++ [SocketClose 5 1006]) = Some (st, eff)
    /\ exhausted defaultOptions st
    /\ retry_delays st = [3000; 3000; 3000; 3000; 3000].
Proof.
  destruct (X17_consecutive_failures_exhaust_the_budget defaultOptions sample_token
              (JStr "abc") 5 eq_refl eq_refl eq_refl)
    as (st & eff & Hrun & Hex & Hd & _).
  exists st, eff. split; [exact Hrun|]. split; [exact Hex|exact Hd].
Defined.

(** ** disconnect() and the close event of the socket it closed *)

(** X18: [disconnect()] leaves the handlers of the socket it closes in
    place. If the browser then reports the close of that socket with a
    code other than 1000 (as it does for a socket closed while still
    connecting), [ws.onclose] treats it as an unexpected close and
    schedules a retry, the counter being below the maximum; with code
    1000 nothing is scheduled. *)
Theorem X18_close_event_after_disconnect
  (opts : Options) (st : State) (i : nat) (s : Socket) (code : Z) :
  wsRef st = Some i -> sockets st !! i = Some s ->
  readyState s = CONNECTING \/ readyState s = OPEN ->
  origin s = ByEffect -> disposed st = false ->
  reconnectCountRef st < reconnectAttempts opts ->
  exists st1 eff1 st2 eff2,
    deliver opts st Disconnect = Some (st1, eff1)
    /\ wsRef st1 = None /\ isConnected st1 = false
    /\ deliver opts st1 (SocketClose i code) = Some (st2, eff2)
    /\ (code <> 1000 ->
        timers st2 = cleared_timers st ++ [retry_timer opts]
        /\ reconnectCountRef st2 = reconnectCountRef st + 1
        /\ reconnectTimeoutRef st2 = Some (length (timers st)))
    /\ (code = 1000 ->
        timers st2 = cleared_timers st
        /\ reconnectCountRef st2 = reconnectCountRef st).
Proof.
  intros Hw Hs Hr Ho Hd Hlt.
  exists (fst (disconnect st)), (snd (disconnect st)).
  assert (Hdel : deliver opts st Disconnect
                 = Some (fst (disconnect st), snd (disconnect st)))
    by (cbn [deliver]; destruct (disconnect st); reflexivity).
  rewrite disconnect_state in *.
  set (st1 := mkState None (reconnectCountRef st) None false (lastMessage st)
                (disposed st) (closing_sockets st) (cleared_timers st) (authData st)) in *.
  destruct (closing_sockets_current st i s Hw Hs) as (s' & Hs' & Hno & Hnc & Hos').
  assert (Hlive : readyState s' <> CLOSED).
  { destruct (closing_sockets_lookup st i s Hs) as (s2 & Hs2 & _ & _ & Hcase).
    rewrite Hs' in Hs2. injection Hs2 as <-.
    destruct Hcase as [E|(_ & E & _)]; rewrite E; [|discriminate].
    destruct Hr as [E'|E']; rewrite E'; discriminate. }
  assert (Hos : origin s' = ByEffect) by congruence.
  destruct (Z.eq_dec code 1000) as [Hc|Hc].
  - exists (fst (onclose opts ByEffect code (set_readyState i CLOSED st1))),
           (snd (onclose opts ByEffect code (set_readyState i CLOSED st1))).
    split; [exact Hdel|]. split; [reflexivity|]. split; [reflexivity|].
    split.
    { rewrite (deliver_SocketClose opts st1 i s' code Hs' Hlive), Hos.
      destruct (onclose opts ByEffect code (set_readyState i CLOSED st1)); reflexivity. }
    split; [intros Hne; contradiction|]. intros _.
    rewrite (set_readyState_lookup i CLOSED st1 s' Hs').
    rewrite onclose_no_retry by (left; exact Hc). cbn. auto.
  - destruct (deliver_close_retry opts st1 i s' code Hs' Hlive Hos Hd Hc Hlt)
      as (st2 & eff2 & Hd2 & Htm & Href & Hcnt & _).
    exists st2, eff2.
    split; [exact Hdel|]. split; [reflexivity|]. split; [reflexivity|].
    split; [exact Hd2|].
    split; [|intros E; contradiction].
    intros _. split; [exact Htm|]. split; [exact Hcnt|].
    rewrite Href. cbn. rewrite length_cleared_timers. reflexivity.
Qed.

Lemma X18_close_event_after_disconnect_witness :
  exists st1 eff1 st2 eff2,
    deliver defaultOptions mounted Disconnect = Some (st1, eff1)
    /\ deliver defaultOptions st1 (SocketClose 0 1006) = Some (st2, eff2)
    /\ timers st2 = [mkTimer 3000 Pending Retry].
Proof.
  destruct (X18_close_event_after_disconnect defaultOptions mounted 0
              (mkSocket CONNECTING ByEffect (JStr "abc")) 1006
              eq_refl eq_refl (or_introl eq_refl) eq_refl eq_refl eq_refl)
    as (st1 & eff1 & st2 & eff2 & H1 & _ & _ & H2 & H3 & _).
  exists st1, eff1, st2, eff2. split; [exact H1|]. split; [exact H2|].
  exact (proj1 (H3 ltac:(discriminate))).
Defined.
